(** * Pattern search engine: index construction and query

    A shallow embedding of [ai/05_build_index.py] (function [build_index])
    and [ai/06_search_pattern.py] (function [search_pattern]).

    Numbers are kept behind the interface [Num], whose operations are the
    float64 operations the scripts use; [float_num] instantiates it with the
    kernel's IEEE-754 binary64 numbers.  Files are entries of a finite map
    from file names to contents. *)

From Stdlib Require Import ZArith Floats Lia.
From stdpp Require Import base list strings gmap pretty sorting.

Open Scope nat_scope.

(** ** Numbers *)

(** The arithmetic the two scripts perform on [numpy.float64] values. *)
Class Num (F : Type) := {
  f_add : F → F → F;
  f_sub : F → F → F;
  f_mul : F → F → F;
  f_div : F → F → F;
  f_sqrt : F → F;
  (** conversion of a Python [int] that meets a float *)
  f_of_nat : nat → F;
  (** [f_ltb a b] is [a < b] *)
  f_ltb : F → F → bool;
  (** the literal [1e-6] *)
  f_eps : F;
  (** [.astype('float32')]: rounding to single precision *)
  f_astype32 : F → F
}.

(** Rounding of a binary64 number to the nearest binary32 number, the result
    again held in a binary64. *)
Definition float_astype32 (x : float) : float :=
  match Prim2SF x with
  | S754_finite s m e => SF2Prim (binary_round 24 128 s m e)
  | _ => x
  end.

Definition float_of_nat (n : nat) : float :=
  PrimFloat.of_uint63 (Uint63.of_Z (Z.of_nat n)).

#[export] Instance float_num : Num float := {|
  f_add := PrimFloat.add;
  f_sub := PrimFloat.sub;
  f_mul := PrimFloat.mul;
  f_div := PrimFloat.div;
  f_sqrt := PrimFloat.sqrt;
  f_of_nat := float_of_nat;
  f_ltb := PrimFloat.ltb;
  f_eps := 0x1.0c6f7a0b5ed8dp-20%float;
  f_astype32 := float_astype32
|}.

(** A float is finite when it is neither an infinity nor a NaN. *)
Definition float_is_finite (x : float) : bool :=
  match Prim2SF x with
  | S754_zero _ | S754_finite _ _ _ => true
  | _ => false
  end.

(** ** Python and numpy sequence operations *)

Section PySeq.
Context {A : Type}.

(** Resolution of one bound of a slice over a sequence of length [n]:
    a negative bound counts from the end, and the result is clamped to
    [0 .. n]. *)
Definition py_bound (n : nat) (i : Z) : nat :=
  Z.to_nat (Z.max 0 (Z.min (Z.of_nat n) (if (i <? 0)%Z then (i + Z.of_nat n)%Z else i))).

(** [l[a:b]]; a missing bound is [None]. *)
Definition py_slice (a b : option Z) (l : list A) : list A :=
  let n := length l in
  let lo := from_option (py_bound n) 0 a in
  let hi := from_option (py_bound n) n b in
  take (hi - lo) (drop lo l).

(** [numpy.lib.stride_tricks.sliding_window_view(x, window_shape=w)] on a
    one-dimensional array; [None] is the [ValueError] raised when the
    window is larger than the array. *)
Definition sliding_window_view (x : list A) (w : nat) : option (list (list A)) :=
  if length x <? w then None
  else Some (map (λ i, take w (drop i x)) (seq 0 (length x - w + 1))).
End PySeq.

Section Stats.
Context {F : Type} `{Num F}.

Definition np_sum (l : list F) : F := foldl f_add (f_of_nat 0) l.

(** [np.mean] *)
Definition np_mean (l : list F) : F := f_div (np_sum l) (f_of_nat (length l)).

(** [np.std] with its default [ddof=0]: the root of the mean of the
    squared deviations from the mean. *)
Definition np_std (l : list F) : F :=
  let m := np_mean l in
  f_sqrt (np_mean (map (λ x, f_mul (f_sub x m) (f_sub x m)) l)).

(** The z-score shape of a window in the words of the specification:
    [(raw - mu) / (sigma + eps)] with the population statistics of the
    window. *)
Definition shape_vector (raw : list F) : list F :=
  let mu := np_mean raw in
  let sigma := np_std raw in
  map (λ x, f_div (f_sub x mu) (f_add sigma f_eps)) raw.

(** The forward outcome in the words of the specification:
    [close[end+H] / close[end] - 1]. *)
Definition simple_return (fut cur : F) : F := f_sub (f_div fut cur) (f_of_nat 1).
End Stats.

(** ** Configuration *)

Record Config := {
  WINDOW_SIZE : nat;
  PREDICT_HORIZON : nat;
  BATCH_SIZE : nat;
  TOP_K : nat
}.

(** The constants of the two scripts. *)
Definition default_config : Config :=
  {| WINDOW_SIZE := 30; PREDICT_HORIZON := 5; BATCH_SIZE := 500; TOP_K := 9 |}.

(** ** Window extraction (the body of the per-symbol loop of [build_index]) *)

Section Windows.
Context {F : Type} `{Num F}.
Variable cfg : Config.

Let W := WINDOW_SIZE cfg.
Let Hz := PREDICT_HORIZON cfg.

(** What one symbol contributes to its batch: nothing ([continue]), or the
    normalised windows with their dates and forward returns. *)
Inductive sym_out :=
| SymSkip
| SymRows (min_len : nat) (norm_windows : list (list F))
          (valid_dates : list Z) (future_ret : list F).

(** Lines 65-86; [None] is an uncaught exception. *)
Definition process_symbol (closes : list F) (dates : list Z) : option sym_out :=
  if length closes <? W + Hz then Some SymSkip
  else
    windows ← sliding_window_view (py_slice None (Some (- Z.of_nat Hz)%Z) closes) W;
    let future_prices := py_slice (Some (Z.of_nat W + Z.of_nat Hz - 1)%Z) None closes in
    let current_prices :=
      py_slice (Some (Z.of_nat W - 1)%Z) (Some (- Z.of_nat Hz)%Z) closes in
    let min_len := min (length windows) (length future_prices) in
    let windows := take min_len windows in
    let future_ret :=
      zip_with (λ f c, f_sub (f_div f c) (f_of_nat 1))
               (take min_len future_prices) (take min_len current_prices) in
    let valid_dates :=
      py_slice (Some (Z.of_nat W - 1)%Z)
               (Some (Z.of_nat W - 1 + Z.of_nat min_len)%Z) dates in
    let means := map np_mean windows in
    let stds := map np_std windows in
    let norm_windows :=
      zip_with (λ w ms, map (λ x, f_div (f_sub x ms.1) (f_add ms.2 f_eps)) w)
               windows (zip means stds) in
    Some (SymRows min_len norm_windows valid_dates future_ret).
End Windows.

Arguments SymSkip {F}.
Arguments SymRows {F} _ _ _ _.

(** The three sequences a symbol contributes; none for a skipped symbol. *)
Definition sym_vectors {F : Type} (o : sym_out (F := F)) : list (list F) :=
  match o with
  | SymSkip => []
  | SymRows _ norm_windows _ _ => norm_windows
  end.

Definition sym_dates {F : Type} (o : sym_out (F := F)) : list Z :=
  match o with
  | SymSkip => []
  | SymRows _ _ valid_dates _ => valid_dates
  end.

Definition sym_returns {F : Type} (o : sym_out (F := F)) : list F :=
  match o with
  | SymSkip => []
  | SymRows _ _ _ future_ret => future_ret
  end.

(** ** The vector index *)

(** Modelled from the spec: [faiss.IndexFlatL2] is a library class that is
    not part of the repository.  Section 4.3 describes it as an append-only,
    row-ordered container; it is modelled as faiss stores it, a dimension, a
    row count and one flat array holding the rows one after the other. *)
Record IndexFlatL2 (F : Type) := {
  ix_d : nat;
  ix_ntotal : nat;
  ix_xb : list F
}.
Arguments ix_d {F} _.
Arguments ix_ntotal {F} _.
Arguments ix_xb {F} _.

Section Index.
Context {F : Type} `{Num F}.

Definition index_new (d : nat) : IndexFlatL2 F :=
  {| ix_d := d; ix_ntotal := 0; ix_xb := [] |}.

(** [index.add(X)]: appends the rows of [X], which take the next row ids;
    [None] when a row has not the index's dimension. *)
Definition index_add (idx : IndexFlatL2 F) (X : list (list F)) : option (IndexFlatL2 F) :=
  if forallb (λ r, length r =? ix_d idx) X
  then Some {| ix_d := ix_d idx;
               ix_ntotal := ix_ntotal idx + length X;
               ix_xb := ix_xb idx ++ concat X |}
  else None.

(** [index.reconstruct(row_id)]; [None] when the row id is out of range. *)
Definition index_reconstruct (idx : IndexFlatL2 F) (row_id : nat) : option (list F) :=
  if row_id <? ix_ntotal idx
  then Some (take (ix_d idx) (drop (row_id * ix_d idx) (ix_xb idx)))
  else None.

(** The flat array of a well-formed index holds [ix_ntotal] rows of [ix_d]
    numbers each. *)
Definition index_wf (idx : IndexFlatL2 F) : Prop :=
  length (ix_xb idx) = ix_ntotal idx * ix_d idx.

(** Squared Euclidean distance. *)
Definition l2_sqr (q v : list F) : F :=
  foldl f_add (f_of_nat 0) (zip_with (λ a b, f_mul (f_sub a b) (f_sub a b)) q v).

(** One search hit: row id and distance. *)
Definition hit : Type := nat * F.

(** Ascending distance, ties broken by lower row id. *)
Definition hit_le (a b : hit) : Prop :=
  f_ltb a.2 b.2 = true ∨ (f_ltb b.2 a.2 = false ∧ a.1 ≤ b.1).

#[export] Instance hit_le_dec (a b : hit) : Decision (hit_le a b).
Proof. unfold hit_le. apply _. Defined.

Definition index_rows (idx : IndexFlatL2 F) : list (list F) :=
  map (λ i, take (ix_d idx) (drop (i * ix_d idx) (ix_xb idx))) (seq 0 (ix_ntotal idx)).

(** Every row with its id and its distance to the query. *)
Definition scored_rows (idx : IndexFlatL2 F) (q : list F) : list hit :=
  imap (λ i v, (i, l2_sqr q v)) (index_rows idx).

(** Modelled from the spec: [search(query, k)] returns the [k] nearest rows
    by squared Euclidean distance, ascending, ties broken by lower row id;
    [None] is the failure on a query whose length is not the dimension. *)
Definition index_search (idx : IndexFlatL2 F) (q : list F) (k : nat) : option (list hit) :=
  if length q =? ix_d idx
  then Some (take k (merge_sort hit_le
               (imap (λ i v, (i, l2_sqr q v)) (index_rows idx))))
  else None.

(** The distances of a list are comparable when [<] is transitive on them
    and every one of them falls on one side of any two that are apart, as
    holds of floats that are not NaN. *)
Definition dist_comparable (D : list F) : Prop :=
  Forall (λ a, Forall (λ b, Forall (λ c,
    (f_ltb a b = true → f_ltb b c = true → f_ltb a c = true)
    ∧ (f_ltb a c = true → f_ltb a b = true ∨ f_ltb b c = true)) D) D) D.

#[export] Instance dist_comparable_dec (D : list F) : Decision (dist_comparable D).
Proof. unfold dist_comparable. apply _. Defined.

(** The row ids as the caller receives them: faiss fills the [k] slots and
    marks the missing ones with [-1]. *)
Definition search_ids (hits : list hit) (k : nat) : list Z :=
  map (λ h : hit, Z.of_nat h.1) hits ++ replicate (k - length hits) (-1)%Z.
End Index.

(** ** Tables and files *)

Record PriceRow (F : Type) := {
  p_symbol : string;
  p_ts : Z;
  p_close : F
}.
Arguments p_symbol {F} _.
Arguments p_ts {F} _.
Arguments p_close {F} _.

Record MetaRow (F : Type) := {
  m_symbol : string;
  m_date : Z;
  m_future_return : F
}.
Arguments m_symbol {F} _.
Arguments m_date {F} _.
Arguments m_future_return {F} _.

Inductive File (F : Type) :=
| FDataset (rows : list (PriceRow F))
| FIndex (idx : IndexFlatL2 F)
| FMeta (rows : list (MetaRow F)).
Arguments FDataset {F} _.
Arguments FIndex {F} _.
Arguments FMeta {F} _.

Definition DATASET_FILE : string := "dataset_ml_ready.parquet".
Definition INDEX_FILE : string := "pattern_search.index".
Definition META_FILE : string := "pattern_metadata.parquet".

Definition PART_PREFIX : string := "pattern_metadata_part_".
Definition PART_SUFFIX : string := ".parquet".

(** [f"pattern_metadata_part_{chunk_idx}.parquet"] *)
Definition part_filename (chunk_idx : nat) : string :=
  PART_PREFIX +:+ pretty chunk_idx +:+ PART_SUFFIX.

(** Whether a file name matches the glob [pattern_metadata_part_*.parquet]. *)
Definition is_part (name : string) : bool :=
  String.prefix PART_PREFIX name
  && (String.length PART_PREFIX + String.length PART_SUFFIX <=? String.length name)
  && String.eqb PART_SUFFIX
       (String.substring (String.length name - String.length PART_SUFFIX)
                         (String.length PART_SUFFIX) name).

(** Insertion of an element into a list kept in ascending order of a key;
    among equal keys the inserted element comes first. *)
Fixpoint insert_by {A : Type} (key : A → Z) (x : A) (l : list A) : list A :=
  match l with
  | [] => [x]
  | y :: l' => if (key x <=? key y)%Z then x :: l else y :: insert_by key x l'
  end.

(** Python's stable [list.sort(key=...)]. *)
Definition py_sort_by {A : Type} (key : A → Z) (l : list A) : list A :=
  foldr (insert_by key) [] l.

(** The elements of a list without repetition, in order of first appearance. *)
Fixpoint first_occurrences (seen l : list string) : list string :=
  match l with
  | [] => []
  | s :: l' =>
      if bool_decide (s ∈ seen) then first_occurrences seen l'
      else s :: first_occurrences (s :: seen) l'
  end.

(** [[l[i:i+n] for i in range(0, len(l), n)]]; the fuel is [len(l)]. *)
Fixpoint chunks_aux {A : Type} (fuel n : nat) (l : list A) : list (list A) :=
  match fuel, l with
  | S fuel', _ :: _ => take n l :: chunks_aux fuel' n (drop n l)
  | _, _ => []
  end.

(** [None] is the [ValueError] of [range] with a zero step. *)
Definition chunks {A : Type} (n : nat) (l : list A) : option (list (list A)) :=
  if n =? 0 then None else Some (chunks_aux (length l) n l).

(** A left fold whose step can raise: the first [None] ends the loop. *)
Fixpoint fold_opt {A B : Type} (f : A → B → option A) (a : A) (l : list B) : option A :=
  match l with
  | [] => Some a
  | x :: l' => a' ← f a x; fold_opt f a' l'
  end.

(** What the runs of [build_index] do not control: the order in which
    [unique()] lists the symbols, which batches fail to load (line 50) and
    which shards fail to be written (line 116). *)
Record Env := {
  all_symbols : list string;
  load_fails : nat → bool;
  meta_write_fails : nat → bool
}.

(** ** [build_index] *)

Section Build.
Context {F : Type} `{Num F}.
Variable cfg : Config.
Variable env : Env.

(** The order of [.sort(["symbol", "ts"])]. *)
Definition row_le (a b : PriceRow F) : Prop :=
  (p_symbol a = p_symbol b ∧ (p_ts a ≤ p_ts b)%Z)
  ∨ (p_symbol a ≠ p_symbol b ∧ String.le (p_symbol a) (p_symbol b)).

#[export] Instance row_le_dec (a b : PriceRow F) : Decision (row_le a b).
Proof. unfold row_le. apply _. Defined.

(** Line 49. *)
Definition load_batch (rows : list (PriceRow F)) (symbols_batch : list string)
  : list (PriceRow F) :=
  merge_sort row_le (filter (λ r, p_symbol r ∈ symbols_batch) rows).

(** [partition_by("symbol", as_dict=True)]: one group per symbol, in order
    of first appearance. *)
Definition partition_by_symbol (df : list (PriceRow F)) : list (string * list (PriceRow F)) :=
  map (λ s, (s, filter (λ r, p_symbol r = s) df))
      (first_occurrences [] (map p_symbol df)).

(** [batch_vectors] and the three lists of [batch_metadata]. *)
Record BatchAcc := {
  batch_vectors : list (list (list F));
  col_symbol : list string;
  col_date : list Z;
  col_future_return : list F
}.

Definition batch_empty : BatchAcc :=
  {| batch_vectors := []; col_symbol := []; col_date := []; col_future_return := [] |}.

(** One turn of the loop of line 64. *)
Definition batch_step (acc : BatchAcc) (g : string * list (PriceRow F)) : option BatchAcc :=
  out ← process_symbol cfg (map p_close g.2) (map p_ts g.2);
  match out with
  | SymSkip => Some acc
  | SymRows min_len norm_windows valid_dates future_ret =>
      Some {| batch_vectors := batch_vectors acc ++ [norm_windows];
              col_symbol := col_symbol acc ++ replicate min_len g.1;
              col_date := col_date acc ++ valid_dates;
              col_future_return := col_future_return acc ++ future_ret |}
  end.

(** [pl.DataFrame(batch_metadata, schema=schema)]; [None] is the exception
    raised when the columns differ in length. *)
Definition mk_dataframe (acc : BatchAcc) : option (list (MetaRow F)) :=
  if (length (col_symbol acc) =? length (col_date acc))
     && (length (col_date acc) =? length (col_future_return acc))
  then Some (zip_with (λ s dr, {| m_symbol := s; m_date := dr.1; m_future_return := dr.2 |})
                      (col_symbol acc) (zip (col_date acc) (col_future_return acc)))
  else None.

(** [np.concatenate(batch_vectors, axis=0).astype('float32')] *)
Definition X_batch_of (acc : BatchAcc) : list (list F) :=
  map (map f_astype32) (concat (batch_vectors acc)).

(** The columns of one batch (lines 54-94). *)
Definition collect_batch (rows : list (PriceRow F)) (symbols_batch : list string)
  : option BatchAcc :=
  fold_opt batch_step batch_empty (partition_by_symbol (load_batch rows symbols_batch)).

(** One turn of the loop of line 45 on the index and the files. *)
Definition process_batch (rows : list (PriceRow F))
    (st : IndexFlatL2 F * gmap string (File F)) (chunk : nat * list string)
  : option (IndexFlatL2 F * gmap string (File F)) :=
  if load_fails env chunk.1 then Some st
  else
    acc ← collect_batch rows chunk.2;
    match batch_vectors acc with
    | [] => Some st
    | _ :: _ =>
        index ← index_add st.1 (X_batch_of acc);
        let shard := if meta_write_fails env chunk.1 then None else mk_dataframe acc in
        match shard with
        | Some df_meta_chunk =>
            Some (index, <[part_filename chunk.1 := FMeta df_meta_chunk]> st.2)
        | None => Some (index, st.2)
        end
    end.

(** The names matching the glob, in the ascending order in which
    [pl.read_parquet] reads the files of a glob. *)
Definition glob_parts (fs : gmap string (File F)) : list string :=
  merge_sort String.le (filter (λ n, is_part n = true) (map fst (map_to_list fs))).

Definition read_meta (fs : gmap string (File F)) (name : string) : option (list (MetaRow F)) :=
  match fs !! name with
  | Some (FMeta rows) => Some rows
  | _ => None
  end.

(** Step 5 (lines 127-143). *)
Definition merge_metadata (fs : gmap string (File F)) : gmap string (File F) :=
  let all_parts := glob_parts fs in
  match all_parts with
  | [] => fs
  | _ :: _ =>
      match mapM (read_meta fs) all_parts with
      | Some shards =>
          foldr delete (<[META_FILE := FMeta (concat shards)]> fs) all_parts
      | None => fs
      end
  end.

(** The state in which the batch loop starts: the old metadata file and
    the stale shards removed. *)
Definition clean_start (fs : gmap string (File F)) : gmap string (File F) :=
  filter (λ kv, is_part kv.1 = false) (delete META_FILE fs).

(** The loop of line 45 over the enumerated chunks. *)
Definition run_batches (rows : list (PriceRow F)) (symbol_chunks : list (list string))
    (st : IndexFlatL2 F * gmap string (File F))
  : option (IndexFlatL2 F * gmap string (File F)) :=
  fold_opt (process_batch rows) st (imap pair symbol_chunks).

(** [build_index()]: the files after the run; [None] is an uncaught
    exception. *)
Definition build_index (fs : gmap string (File F)) : option (gmap string (File F)) :=
  match fs !! DATASET_FILE with
  | Some (FDataset rows) =>
      symbol_chunks ← chunks (BATCH_SIZE cfg) (all_symbols env);
      st ← run_batches rows symbol_chunks (index_new (WINDOW_SIZE cfg), clean_start fs);
      Some (merge_metadata (<[INDEX_FILE := FIndex st.1]> st.2))
  | _ => Some fs
  end.
End Build.

(** [lf.select("symbol").unique()] lists every symbol of the source once, in
    an order that polars does not fix. *)
Definition unique_symbols {F : Type} (rows : list (PriceRow F)) (symbols : list string) : Prop :=
  NoDup symbols ∧ ∀ s, s ∈ symbols ↔ s ∈ map p_symbol rows.

(** A run of [build_index] on given files with given failures: [unique()]
    lists the symbols in some order. *)
Definition build_run {F : Type} `{Num F} (cfg : Config) (lf wf : nat → bool)
    (fs : gmap string (File F)) (out : option (gmap string (File F))) : Prop :=
  ∃ symbols,
    (∀ rows, fs !! DATASET_FILE = Some (FDataset rows) → unique_symbols rows symbols)
    ∧ out = build_index cfg {| all_symbols := symbols; load_fails := lf;
                               meta_write_fails := wf |} fs.

(** What holds of the index and the files all along the batch loop: no
    metadata file, and no shard as long as the index is empty. *)
Definition no_shard_yet {F : Type} (st : IndexFlatL2 F * gmap string (File F)) : Prop :=
  st.2 !! META_FILE = None
  ∧ (ix_ntotal st.1 = 0 → ∀ name, is_part name = true → st.2 !! name = None).

(** ** [search_pattern] *)

Inductive PyExn :=
| ZeroDivisionError
| IndexError
| FaissError
| ParquetError.

(** One plotted neighbour. *)
Record Match (F : Type) := {
  r_row_id : nat;
  r_symbol : string;
  r_date : Z;
  r_future_r : F;
  r_match_vector : list F
}.
Arguments r_row_id {F} _.
Arguments r_symbol {F} _.
Arguments r_date {F} _.
Arguments r_future_r {F} _.
Arguments r_match_vector {F} _.

(** What a run of [search_pattern] shows: one of its three messages followed
    by [return], the plotted neighbours with the two statistics, or an
    uncaught exception. *)
Inductive Outcome (F : Type) :=
| PrintNoIndex
| PrintNoDataset
| PrintNoData
| PrintReport (results : list (Match F)) (win_rate avg_ret : F)
| Raised (e : PyExn).
Arguments PrintNoIndex {F}.
Arguments PrintNoDataset {F}.
Arguments PrintNoData {F}.
Arguments PrintReport {F} _ _ _.
Arguments Raised {F} _.

(** What the caller of [search_pattern] receives. *)
Inductive CallResult :=
| ReturnsNone
| Raises (e : PyExn).

Definition call_result {F : Type} (o : Outcome F) : CallResult :=
  match o with
  | Raised e => Raises e
  | _ => ReturnsNone
  end.

(** Whether the run reached [index.search]. *)
Definition searched {F : Type} (o : Outcome F) : bool :=
  match o with
  | PrintNoIndex | PrintNoDataset | PrintNoData => false
  | _ => true
  end.

Section Search.
Context {F : Type} `{Num F}.
Variable cfg : Config.

(** [{id_: i for i, id_ in enumerate(found_ids)}] *)
Definition order_map (found_ids : list Z) : gmap Z nat :=
  foldl (λ m p, <[p.2 := p.1]> m) ∅ (imap pair found_ids).

(** Lines 46-51. *)
Definition query_norm_of (query_prices : list F) : list F :=
  let q_mean := np_mean query_prices in
  let q_std := np_std query_prices in
  map (λ x, f_div (f_sub x q_mean) (f_add q_std f_eps)) query_prices.

Definition query_vector_of (query_prices : list F) : list F :=
  map f_astype32 (query_norm_of query_prices).

(** The neighbour plotted for a metadata row: its outcome in percent and the
    vector the index holds at its row id. *)
Definition match_of (index : IndexFlatL2 F) (row_id : nat) (m : MetaRow F) : Match F :=
  {| r_row_id := row_id;
     r_symbol := m_symbol m;
     r_date := m_date m;
     r_future_r := f_mul (m_future_return m) (f_of_nat 100);
     r_match_vector := take (ix_d index) (drop (row_id * ix_d index) (ix_xb index)) |}.

(** One turn of the loop of line 75; the figure has nine axes. *)
Definition plot_step (index : IndexFlatL2 F) (acc : list (Match F))
    (res : nat * (nat * MetaRow F)) : PyExn + list (Match F) :=
  if 9 <=? res.1 then inl IndexError
  else
    match index_reconstruct index res.2.1 with
    | None => inl FaissError
    | Some match_vector =>
        inr (acc ++ [{| r_row_id := res.2.1;
                        r_symbol := m_symbol res.2.2;
                        r_date := m_date res.2.2;
                        r_future_r := f_mul (m_future_return res.2.2) (f_of_nat 100);
                        r_match_vector := match_vector |}])
    end.

Fixpoint plot_loop (index : IndexFlatL2 F) (acc : list (Match F))
    (l : list (nat * (nat * MetaRow F))) : PyExn + list (Match F) :=
  match l with
  | [] => inr acc
  | res :: l' =>
      match plot_step index acc res with
      | inl e => inl e
      | inr acc' => plot_loop index acc' l'
      end
  end.

(** Lines 108-109. *)
Definition win_rate_of (returns_stats : list F) : F :=
  f_mul (f_div (f_of_nat (length (filter (λ r, f_ltb (f_of_nat 0) r = true) returns_stats)))
               (f_of_nat (length returns_stats)))
        (f_of_nat 100).

Definition avg_ret_of (returns_stats : list F) : F :=
  f_div (foldl f_add (f_of_nat 0) returns_stats) (f_of_nat (length returns_stats)).

(** Lines 53-109, with the index, the metadata and the query window loaded. *)
Definition run_query (index : IndexFlatL2 F) (meta : list (MetaRow F))
    (query_prices : list F) : Outcome F :=
  if TOP_K cfg =? 0 then Raised FaissError
  else
    match index_search index (query_vector_of query_prices) (TOP_K cfg) with
    | None => Raised FaissError
    | Some hits =>
        let found_ids := search_ids hits (TOP_K cfg) in
        let df_results :=
          filter (λ r : nat * MetaRow F, Z.of_nat r.1 ∈ found_ids) (imap pair meta) in
        let om := order_map found_ids in
        let results_list :=
          py_sort_by (λ x : nat * MetaRow F,
                        Z.of_nat (default 999 (om !! Z.of_nat x.1))) df_results in
        match plot_loop index [] (imap pair results_list) with
        | inl e => Raised e
        | inr results =>
            let returns_stats := map r_future_r results in
            match returns_stats with
            | [] => Raised ZeroDivisionError
            | _ :: _ =>
                PrintReport results (win_rate_of returns_stats) (avg_ret_of returns_stats)
            end
        end
    end.

(** [search_pattern(target_symbol)] *)
Definition search_pattern (fs : gmap string (File F)) (target_symbol : string) : Outcome F :=
  match fs !! INDEX_FILE, fs !! META_FILE with
  | Some fi, Some fm =>
      match fi with
      | FIndex index =>
          match fm with
          | FMeta meta =>
              match fs !! DATASET_FILE with
              | Some (FDataset df_prices) =>
                  let rows := filter (λ r, p_symbol r = target_symbol) df_prices in
                  let df_target := drop (length rows - WINDOW_SIZE cfg) rows in
                  if length df_target <? WINDOW_SIZE cfg then PrintNoData
                  else run_query index meta (map p_close df_target)
              | _ => PrintNoDataset
              end
          | _ => Raised ParquetError
          end
      | _ => Raised FaissError
      end
  | _, _ => PrintNoIndex
  end.
End Search.

(** ** Concrete runs on float64 data *)

(** Small window and horizon, the batch size and [TOP_K] of the scripts. *)
Definition small_config : Config :=
  {| WINDOW_SIZE := 2; PREDICT_HORIZON := 1; BATCH_SIZE := 500; TOP_K := 9 |}.

(** One symbol per batch. *)
Definition single_config : Config :=
  {| WINDOW_SIZE := 2; PREDICT_HORIZON := 1; BATCH_SIZE := 1; TOP_K := 9 |}.

(** The rows of one symbol, with timestamps [0, 1, 2, ...]. *)
Definition price_rows (s : string) (closes : list float) : list (PriceRow float) :=
  imap (λ i c, {| p_symbol := s; p_ts := Z.of_nat i; p_close := c |}) closes.

(** A run in which nothing fails. *)
Definition calm_env (symbols : list string) : Env :=
  {| all_symbols := symbols; load_fails := λ _, false; meta_write_fails := λ _, false |}.

Definition dataset_only (rows : list (PriceRow float)) : gmap string (File float) :=
  {[ DATASET_FILE := FDataset rows ]}.

(** One symbol whose five closes give three windows. *)
Definition three_window_rows : list (PriceRow float) :=
  price_rows "A" [1; 2; 4; 2; 3]%float.

(** Two symbols, one rising and one falling. *)
Definition two_symbol_rows : list (PriceRow float) :=
  price_rows "A" [1; 2; 4]%float ++ price_rows "B" [4; 2; 1]%float.

(** A finite float64 close near the top of the range. *)
Definition huge_close : float := 0x1.1ccf385ebc8ap+1023%float.

(** An index holding the same vector at rows 0 and 1. *)
Definition twin_index : IndexFlatL2 float :=
  {| ix_d := 2; ix_ntotal := 2; ix_xb := [0; 0; 0; 0]%float |}.

(** A universe of 5001 symbols, eleven batches at the batch size of the
    script.  Only [S1000], in batch 2, and [S5000], in batch 10, have the 35
    closes a window needs; the first falls and the second rises. *)
Definition wide_name (i : nat) : string := "S" +:+ pretty i.

Definition wide_symbols : list string := map wide_name (seq 0 (10 * 500 + 1)).

Definition wide_closes (i : nat) : list float :=
  if i =? 1000 then map float_of_nat (reverse (seq 1 35))
  else if i =? 5000 then map float_of_nat (seq 1 35)
  else [1%float].

Definition wide_rows : list (PriceRow float) :=
  concat (map (λ i, price_rows (wide_name i) (wide_closes i)) (seq 0 (10 * 500 + 1))).

(** The shape of the first window of [S1000], closes 35 down to 6. *)
Definition falling_shape : list float :=
  map f_astype32 (shape_vector (map float_of_nat (reverse (seq 6 30)))).

(** What is read off the files of a build: the row count of the index, the
    vector at row 0, and the symbol column of the metadata. *)
Definition build_observation (built : option (gmap string (File float)))
  : option (nat * option (list float) * list string) :=
  fs' ← built;
  match fs' !! INDEX_FILE, fs' !! META_FILE with
  | Some (FIndex index), Some (FMeta meta) =>
      Some (ix_ntotal index, index_reconstruct index 0, map m_symbol meta)
  | _, _ => None
  end.

(** The number of symbols of the universe, the rows of its symbol [i] and
    the symbols of its batch [k]. *)
Definition wide_count : nat := 10 * 500 + 1.

Definition wide_block (i : nat) : list (PriceRow float) :=
  price_rows (wide_name i) (wide_closes i).

Definition wide_chunk (k : nat) : list string :=
  map wide_name (seq (500 * k) (min 500 (wide_count - 500 * k))).

(** The shape of the window of [S5000], closes 1 up to 30. *)
Definition rising_shape : list float :=
  map f_astype32 (shape_vector (map float_of_nat (seq 1 30))).

(** ** The batches of a build *)

Section Ledger.
Context {F : Type} `{Num F}.
Variable cfg : Config.
Variable env : Env.

(** The columns of a batch are regular when every vector has [WINDOW_SIZE]
    numbers and the three metadata columns have one entry per vector. *)
Definition batch_regular (acc : BatchAcc (F := F)) : Prop :=
  Forall (λ v, length v = WINDOW_SIZE cfg) (concat (batch_vectors acc))
  ∧ length (col_symbol acc) = length (concat (batch_vectors acc))
  ∧ length (col_date acc) = length (concat (batch_vectors acc))
  ∧ length (col_future_return acc) = length (concat (batch_vectors acc)).

(** The batches that reach [index.add] (line 99), each with its
    [chunk_idx], in the order of the loop: those that load and yield at
    least one window. *)
Definition batch_ledger (rows : list (PriceRow F)) (symbol_chunks : list (nat * list string))
  : list (nat * BatchAcc (F := F)) :=
  omap (λ chunk : nat * list string,
          if load_fails env chunk.1 then None
          else match collect_batch cfg rows chunk.2 with
               | Some acc =>
                   match batch_vectors acc with
                   | [] => None
                   | _ :: _ => Some (chunk.1, acc)
                   end
               | None => None
               end)
       symbol_chunks.

(** The shard a batch leaves behind (lines 109-117): none when the write
    fails. *)
Definition shard_of (e : nat * BatchAcc (F := F)) : option (list (MetaRow F)) :=
  if meta_write_fails env e.1 then None else mk_dataframe e.2.
End Ledger.

(** ** Concrete query data *)

(** A configuration with windows of one close. *)
Definition unit_config (k : nat) : Config :=
  {| WINDOW_SIZE := 1; PREDICT_HORIZON := 1; BATCH_SIZE := 500; TOP_K := k |}.

(** An index of [n] one-dimensional vectors [0, 1, ..., n-1]. *)
Definition line_index (n : nat) : IndexFlatL2 float :=
  {| ix_d := 1; ix_ntotal := n; ix_xb := map float_of_nat (seq 0 n) |}.

Definition flat_meta (n : nat) : list (MetaRow float) :=
  map (λ i, {| m_symbol := "A"; m_date := Z.of_nat i; m_future_return := 0.5%float |})
      (seq 0 n).

(** The files of a query: an index, a metadata table and a source with one
    close of the symbol ["A"]. *)
Definition query_files (index : IndexFlatL2 float) (meta : list (MetaRow float))
  : gmap string (File float) :=
  <[INDEX_FILE := FIndex index]>
    (<[META_FILE := FMeta meta]> (dataset_only (price_rows "A" [1]%float))).

(** Files with a metadata table and a shard left by an earlier run. *)
Definition stale_files : gmap string (File float) :=
  <[part_filename 7 := FMeta (flat_meta 3)]>
    (<[META_FILE := FMeta (flat_meta 1)]> (dataset_only two_symbol_rows)).

(** A run in which the shard of the first batch fails to be written. *)
Definition lossy_env (symbols : list string) : Env :=
  {| all_symbols := symbols; load_fails := λ _, false;
     meta_write_fails := λ k, k =? 0 |}.

(** Windows of two closes and a horizon of 0. *)
Definition zero_horizon_config : Config :=
  {| WINDOW_SIZE := 2; PREDICT_HORIZON := 0; BATCH_SIZE := 500; TOP_K := 9 |}.

(** * Properties *)

Section PySeqFacts.
Context {A : Type}.
Implicit Types l : list A.

Lemma py_bound_nonneg n (a : nat) : py_bound n (Z.of_nat a) = min n a.
Proof. unfold py_bound. destruct (Z.ltb_spec (Z.of_nat a) 0); lia. Qed.

Lemma py_bound_neg n (h : nat) : 1 ≤ h → py_bound n (- Z.of_nat h) = n - h.
Proof. intros. unfold py_bound. destruct (Z.ltb_spec (- Z.of_nat h) 0); lia. Qed.

Lemma py_slice_from (a : nat) l : py_slice (Some (Z.of_nat a)) None l = drop a l.
Proof.
  unfold py_slice; simpl. rewrite py_bound_nonneg.
  destruct (decide (a ≤ length l)).
  - rewrite Nat.min_r by lia. apply take_ge. rewrite length_drop. lia.
  - rewrite Nat.min_l by lia. rewrite !drop_ge by lia. by rewrite take_nil.
Qed.

Lemma py_slice_to_neg (h : nat) l :
  1 ≤ h → py_slice None (Some (- Z.of_nat h)%Z) l = take (length l - h) l.
Proof. intros. unfold py_slice; simpl. rewrite py_bound_neg by done. by rewrite Nat.sub_0_r. Qed.

Lemma py_slice_from_to_neg (a h : nat) l :
  1 ≤ h → py_slice (Some (Z.of_nat a)) (Some (- Z.of_nat h)%Z) l
          = take (length l - h - a) (drop a l).
Proof.
  intros. unfold py_slice; simpl. rewrite py_bound_nonneg, py_bound_neg by done.
  destruct (decide (a ≤ length l)).
  - rewrite Nat.min_r by lia. done.
  - rewrite Nat.min_l by lia. rewrite !drop_ge by lia. by rewrite !take_nil.
Qed.

Lemma py_slice_from_to (a b : nat) l :
  py_slice (Some (Z.of_nat a)) (Some (Z.of_nat b)) l = take (b - a) (drop a l).
Proof.
  unfold py_slice; simpl. rewrite !py_bound_nonneg.
  destruct (decide (a ≤ length l)).
  - rewrite (Nat.min_r _ a) by lia.
    destruct (decide (b ≤ length l)).
    + by rewrite Nat.min_r by lia.
    + rewrite Nat.min_l by lia. rewrite !take_ge; [done| |]; rewrite length_drop; lia.
  - rewrite !drop_ge by lia. by rewrite !take_nil.
Qed.

Lemma window_of_prefix (w m i : nat) l :
  i + w ≤ m → take w (drop i (take m l)) = take w (drop i l).
Proof.
  intros. replace m with (i + (m - i)) by lia.
  rewrite <- take_drop_commute, take_take. f_equal. lia.
Qed.
End PySeqFacts.

Section WindowFacts.
Context {F : Type} `{Num F}.
Variable cfg : Config.
#[local] Abbreviation W := (WINDOW_SIZE cfg).
#[local] Abbreviation Hz := (PREDICT_HORIZON cfg).

Lemma normalise_rows (ws : list (list F)) :
  zip_with (λ w ms, map (λ x, f_div (f_sub x ms.1) (f_add ms.2 f_eps)) w)
           ws (zip (map np_mean ws) (map np_std ws))
  = map shape_vector ws.
Proof. induction ws as [|w ws IH]; simpl; [done|]. by rewrite IH. Qed.

Lemma windows_of_series (closes : list F) (n : nat) :
  n + W + Hz ≤ length closes + 1 →
  map (λ i, take W (drop i (take (length closes - Hz) closes))) (seq 0 n)
  = map (λ i, take W (drop i closes)) (seq 0 n).
Proof.
  intros. apply map_ext_in. intros i Hi%in_seq.
  apply window_of_prefix. lia.
Qed.

Lemma process_symbol_rows (closes : list F) (dates : list Z) :
  1 ≤ W → 1 ≤ Hz → W + Hz ≤ length closes →
  let n := length closes + 1 - W - Hz in
  process_symbol cfg closes dates
  = Some (SymRows n
            (map (λ i, shape_vector (take W (drop i closes))) (seq 0 n))
            (take n (drop (W - 1) dates))
            (zip_with simple_return
               (take n (drop (W + Hz - 1) closes))
               (take n (drop (W - 1) closes)))).
Proof.
  intros HW HH HL n. unfold process_symbol.
  destruct (Nat.ltb_spec (length closes) (W + Hz)); [lia|].
  rewrite py_slice_to_neg by done.
  unfold sliding_window_view. rewrite length_take, Nat.min_l by lia.
  destruct (Nat.ltb_spec (length closes - Hz) W); [lia|].
  simpl.
  replace (Z.of_nat W + Z.of_nat Hz - 1)%Z with (Z.of_nat (W + Hz - 1)) by lia.
  replace (Z.of_nat W - 1)%Z with (Z.of_nat (W - 1)) by lia.
  rewrite py_slice_from, py_slice_from_to_neg by done.
  rewrite length_map, length_seq, length_drop.
  replace (length closes - Hz - W + 1) with n by lia.
  replace (n `min` (length closes - (W + Hz - 1))) with n by lia.
  replace (Z.of_nat (W - 1) + Z.of_nat n)%Z with (Z.of_nat (W - 1 + n)) by lia.
  rewrite py_slice_from_to.
  replace (W - 1 + n - (W - 1)) with n by lia.
  replace (length closes - Hz - (W - 1)) with n by lia.
  rewrite take_take, Nat.min_id.
  rewrite (take_ge (map _ (seq 0 n))) by (rewrite length_map, length_seq; lia).
  rewrite normalise_rows, windows_of_series by lia.
  by rewrite <- list_fmap_compose.
Qed.
End WindowFacts.

Section ExtractionTheorems.
Context {F : Type} `{Num F}.
Variable cfg : Config.
#[local] Abbreviation W := (WINDOW_SIZE cfg).
#[local] Abbreviation Hz := (PREDICT_HORIZON cfg).

Lemma process_symbol_short (closes : list F) (dates : list Z) :
  length closes < W + Hz → process_symbol cfg closes dates = Some SymSkip.
Proof.
  intros. unfold process_symbol.
  by destruct (Nat.ltb_spec (length closes) (W + Hz)); [|lia].
Qed.

(** C5: for a series of [L] closes, window extraction yields exactly
    [max(0, L - W - H + 1)] windows, one for every offset [i] with
    [i + W - 1 + H < L], with as many outcomes; a series of [W + H] points
    yields one window, and a series shorter than [W + H] yields the empty
    sequence, not an error. *)
Theorem window_extraction_count (closes : list F) (dates : list Z) :
  1 ≤ W → 1 ≤ Hz →
  ∃ o, process_symbol cfg closes dates = Some o
    ∧ Z.of_nat (length (sym_vectors o))
      = Z.max 0 (Z.of_nat (length closes) - Z.of_nat W - Z.of_nat Hz + 1)
    ∧ length (sym_returns o) = length (sym_vectors o)
    ∧ (∀ i, i < length (sym_vectors o) ↔ i + W - 1 + Hz < length closes)
    ∧ (length closes = W + Hz → length (sym_vectors o) = 1)
    ∧ (length closes < W + Hz → sym_vectors o = []).
Proof.
  intros HW HH.
  destruct (decide (length closes < W + Hz)) as [Hs|Hl].
  - exists SymSkip. rewrite process_symbol_short by done. simpl.
    repeat split; try lia; done.
  - exists (SymRows (length closes + 1 - W - Hz)
            (map (λ i, shape_vector (take W (drop i closes)))
                 (seq 0 (length closes + 1 - W - Hz)))
            (take (length closes + 1 - W - Hz) (drop (W - 1) dates))
            (zip_with simple_return
               (take (length closes + 1 - W - Hz) (drop (W + Hz - 1) closes))
               (take (length closes + 1 - W - Hz) (drop (W - 1) closes)))).
    split; [apply process_symbol_rows; lia|]. simpl.
    rewrite length_map, length_seq, length_zip_with, !length_take, !length_drop.
    repeat split; try lia.
Qed.

(** C7: for every extracted window, ending at series index [end = i + W - 1],
    the stored outcome is the simple return [close[end+H] / close[end] - 1]
    and the paired date is the timestamp at [end]; the query does not compute
    returns of its own, it shows the stored outcome (scaled by 100). *)
Theorem forward_outcome_simple_return (closes : list F) (dates : list Z) (o : sym_out) :
  1 ≤ W → 1 ≤ Hz → length dates = length closes →
  process_symbol cfg closes dates = Some o →
  (∀ i, i < length (sym_vectors o) →
     ∃ cur fut date,
       closes !! (i + W - 1) = Some cur
       ∧ closes !! (i + W - 1 + Hz) = Some fut
       ∧ dates !! (i + W - 1) = Some date
       ∧ sym_returns o !! i = Some (simple_return fut cur)
       ∧ sym_dates o !! i = Some date)
  ∧ (∀ (index : IndexFlatL2 F) acc res out,
       plot_step index acc res = inr out →
       ∃ m, out = acc ++ [m]
          ∧ r_future_r m = f_mul (m_future_return res.2.2) (f_of_nat 100)).
Proof.
  intros HW HH Hd Hp. split.
  - destruct (decide (length closes < W + Hz)) as [Hs|Hl].
    { rewrite process_symbol_short in Hp by done. injection Hp as <-.
      simpl. intros; lia. }
    rewrite process_symbol_rows in Hp by lia. injection Hp as <-. simpl.
    rewrite length_map, length_seq. intros i Hi.
    destruct (lookup_lt_is_Some_2 closes (i + W - 1)) as [cur Hcur]; [lia|].
    destruct (lookup_lt_is_Some_2 closes (i + W - 1 + Hz)) as [fut Hfut]; [lia|].
    destruct (lookup_lt_is_Some_2 dates (i + W - 1)) as [date Hdate]; [lia|].
    exists cur, fut, date. repeat split; try done.
    + rewrite lookup_zip_with, !lookup_take_lt, !lookup_drop by done.
      replace (W + Hz - 1 + i) with (i + W - 1 + Hz) by lia.
      replace (W - 1 + i) with (i + W - 1) by lia.
      by rewrite Hfut, Hcur.
    + rewrite lookup_take_lt, lookup_drop by done.
      replace (W - 1 + i) with (i + W - 1) by lia. done.
  - intros index acc res out. unfold plot_step.
    destruct (9 <=? res.1); [done|].
    destruct (index_reconstruct index res.2.1); [|done].
    intros [= <-]. eexists. split; [done|]. done.
Qed.

Lemma X_batch_of_snoc (acc : BatchAcc) (nw : list (list F)) cs cd cr :
  X_batch_of {| batch_vectors := batch_vectors acc ++ [nw];
                col_symbol := cs; col_date := cd; col_future_return := cr |}
  = X_batch_of acc ++ map (map f_astype32) nw.
Proof.
  unfold X_batch_of; simpl. rewrite concat_app; simpl.
  by rewrite app_nil_r, map_app.
Qed.

End ExtractionTheorems.

Section IndexFacts.
Context {F : Type} `{Num F}.
Implicit Types idx : IndexFlatL2 F.

Lemma index_new_wf d : index_wf (index_new (F := F) d).
Proof. done. Qed.

Lemma rows_have_dim (d : nat) (X : list (list F)) :
  forallb (λ r, length r =? d) X = true → Forall (λ r, length r = d) X.
Proof.
  rewrite forallb_forall, Forall_forall. intros HX r Hr.
  apply Nat.eqb_eq, HX. by apply list_elem_of_In.
Qed.

Lemma length_concat_dim (d : nat) (X : list (list F)) :
  Forall (λ r, length r = d) X → length (concat X) = length X * d.
Proof.
  induction 1 as [|r X Hr _ IH]; simpl; [done|].
  rewrite length_app, IH, Hr. lia.
Qed.

Lemma concat_row (d : nat) (X : list (list F)) (j : nat) (row : list F) :
  Forall (λ r, length r = d) X → X !! j = Some row →
  take d (drop (j * d) (concat X)) = row.
Proof.
  intros HX. revert j. induction HX as [|r X Hr _ IH]; intros j Hj; [done|].
  destruct j as [|j]; simpl in *.
  - injection Hj as ->. by rewrite drop_0, take_app_length'.
  - rewrite drop_app_add' by done. by apply IH.
Qed.

Lemma index_add_inv idx X idx' :
  index_add idx X = Some idx' →
  Forall (λ r, length r = ix_d idx) X
  ∧ ix_d idx' = ix_d idx
  ∧ ix_ntotal idx' = ix_ntotal idx + length X
  ∧ ix_xb idx' = ix_xb idx ++ concat X.
Proof.
  unfold index_add. destruct (forallb _ X) eqn:HX; [|done].
  intros [= <-]. split; [by apply rows_have_dim|done].
Qed.

Lemma index_add_wf idx X idx' :
  index_wf idx → index_add idx X = Some idx' → index_wf idx'.
Proof.
  unfold index_wf. intros Hwf (HX & Hd & Hn & Hxb)%index_add_inv.
  rewrite Hxb, Hn, Hd, length_app, (length_concat_dim _ _ HX). lia.
Qed.

Lemma index_add_old idx X idx' (i : nat) :
  index_wf idx → index_add idx X = Some idx' → i < ix_ntotal idx →
  index_reconstruct idx' i = index_reconstruct idx i.
Proof.
  unfold index_wf. intros Hwf (HX & Hd & Hn & Hxb)%index_add_inv Hi.
  unfold index_reconstruct. rewrite Hn, Hd, Hxb.
  destruct (Nat.ltb_spec i (ix_ntotal idx + length X)); [|lia].
  destruct (Nat.ltb_spec i (ix_ntotal idx)); [|lia].
  f_equal. rewrite drop_app_le by nia.
  apply take_app_le. rewrite length_drop. nia.
Qed.

Lemma index_add_new idx X idx' (j : nat) (row : list F) :
  index_wf idx → index_add idx X = Some idx' → X !! j = Some row →
  index_reconstruct idx' (ix_ntotal idx + j) = Some row.
Proof.
  unfold index_wf. intros Hwf (HX & Hd & Hn & Hxb)%index_add_inv Hj.
  unfold index_reconstruct. rewrite Hn, Hd, Hxb.
  apply lookup_lt_Some in Hj as Hlt.
  destruct (Nat.ltb_spec (ix_ntotal idx + j) (ix_ntotal idx + length X)); [|lia].
  f_equal. rewrite Nat.mul_add_distr_r, drop_app_add' by done.
  by apply concat_row.
Qed.
End IndexFacts.

Lemma fold_opt_app {A B : Type} (f : A → B → option A) (a : A) (l1 l2 : list B) :
  fold_opt f a (l1 ++ l2) = fold_opt f a l1 ≫= λ a', fold_opt f a' l2.
Proof.
  revert a. induction l1 as [|x l1 IH]; intros a; simpl; [done|].
  destruct (f a x); simpl; [apply IH|done].
Qed.

Lemma fold_opt_invariant {A B : Type} (P : A → Prop) (f : A → B → option A)
    (a b : A) (l : list B) :
  (∀ a x a', P a → f a x = Some a' → P a') →
  P a → fold_opt f a l = Some b → P b.
Proof.
  intros Hstep. revert a. induction l as [|x l IH]; intros a Ha; simpl.
  - by intros [= <-].
  - destruct (f a x) as [a'|] eqn:Hf; simpl; [|done]. eauto.
Qed.

Section BuildFacts.
Context {F : Type} `{Num F}.
Variable cfg : Config.
Variable env : Env.
Variable rows : list (PriceRow F).
Implicit Types st : IndexFlatL2 F * gmap string (File F).
Implicit Types fs : gmap string (File F).

(** What one turn of the batch loop does to the index and the files. *)
Lemma process_batch_cases st chunk st' :
  process_batch cfg env rows st chunk = Some st' →
  st' = st
  ∨ ∃ acc, load_fails env chunk.1 = false
         ∧ collect_batch cfg rows chunk.2 = Some acc
         ∧ batch_vectors acc ≠ []
         ∧ index_add st.1 (X_batch_of acc) = Some st'.1
         ∧ (st'.2 = st.2
            ∨ ∃ df, st'.2 = <[part_filename chunk.1 := FMeta df]> st.2).
Proof.
  unfold process_batch. destruct (load_fails env chunk.1) eqn:Hl.
  { intros [= <-]. by left. }
  destruct (collect_batch cfg rows chunk.2) as [acc|] eqn:Hc; simpl; [|done].
  destruct (batch_vectors acc) as [|v vs] eqn:Hv.
  { intros [= <-]. by left. }
  destruct (index_add st.1 (X_batch_of acc)) as [index|] eqn:Ha; simpl; [|done].
  intros Hst. right. exists acc. rewrite Hv.
  destruct (if meta_write_fails env chunk.1 then None else mk_dataframe acc) as [df|];
    injection Hst as <-; simpl; eauto 10.
Qed.

Lemma process_batch_keeps st chunk st' :
  index_wf st.1 → process_batch cfg env rows st chunk = Some st' →
  index_wf st'.1 ∧ ix_ntotal st.1 ≤ ix_ntotal st'.1
  ∧ ∀ i, i < ix_ntotal st.1 → index_reconstruct st'.1 i = index_reconstruct st.1 i.
Proof.
  intros Hwf [->|(acc & _ & _ & _ & Ha & _)]%process_batch_cases; [done|].
  split; [by eapply index_add_wf|].
  split; [apply index_add_inv in Ha; lia|].
  intros i Hi. by eapply index_add_old.
Qed.

Lemma batches_keep (l : list (nat * list string)) st st' :
  index_wf st.1 → fold_opt (process_batch cfg env rows) st l = Some st' →
  index_wf st'.1 ∧ ix_ntotal st.1 ≤ ix_ntotal st'.1
  ∧ ∀ i, i < ix_ntotal st.1 → index_reconstruct st'.1 i = index_reconstruct st.1 i.
Proof.
  revert st. induction l as [|c l IH]; intros st Hwf; simpl.
  - by intros [= <-].
  - destruct (process_batch cfg env rows st c) as [st1|] eqn:Hs; simpl; [|done].
    intros Hf. destruct (process_batch_keeps _ _ _ Hwf Hs) as (Hwf1 & Hle1 & Hold1).
    destruct (IH _ Hwf1 Hf) as (Hwf2 & Hle2 & Hold2).
    split; [done|]. split; [lia|].
    intros i Hi. rewrite Hold2 by lia. by apply Hold1.
Qed.
End BuildFacts.

Section FileFacts.
Context {F : Type} `{Num F}.
Implicit Types fs : gmap string (File F).

Lemma glob_parts_elem fs (name : string) :
  name ∈ glob_parts fs ↔ is_part name = true ∧ is_Some (fs !! name).
Proof.
  unfold glob_parts. rewrite merge_sort_Permutation, list_elem_of_filter.
  apply and_iff_compat_l. rewrite list_elem_of_fmap. split.
  - intros ([k v] & -> & Hkv). apply elem_of_map_to_list in Hkv. by exists v.
  - intros [v Hv]. exists (name, v). split; [done|]. by apply elem_of_map_to_list.
Qed.

Lemma glob_parts_none fs :
  (∀ name, is_part name = true → fs !! name = None) → glob_parts fs = [].
Proof.
  intros Hn. destruct (glob_parts fs) as [|name l] eqn:Hg; [done|].
  assert (name ∈ glob_parts fs) as [Hp [v Hv]]%glob_parts_elem
    by (rewrite Hg; left).
  rewrite Hn in Hv by done. done.
Qed.

Lemma merge_metadata_other fs (name : string) :
  is_part name = false → name ≠ META_FILE →
  merge_metadata fs !! name = fs !! name.
Proof.
  intros Hp Hm. unfold merge_metadata.
  destruct (glob_parts fs) as [|p l] eqn:Hg; [done|].
  destruct (mapM (read_meta fs) (p :: l)); [|done].
  rewrite lookup_foldr_delete_not_elem_of.
  - by rewrite lookup_insert_ne.
  - rewrite <- Hg. intros [Hp' _]%glob_parts_elem. congruence.
Qed.

Lemma part_filename_not_meta (k : nat) : part_filename k ≠ META_FILE.
Proof. unfold part_filename, PART_PREFIX, META_FILE. simpl. by intros [=]. Qed.

Lemma part_filename_not_index (k : nat) : part_filename k ≠ INDEX_FILE.
Proof. unfold part_filename, PART_PREFIX, INDEX_FILE. simpl. by intros [=]. Qed.
End FileFacts.

Section RoundTrip.
Context {F : Type} `{Num F}.
Variable cfg : Config.
Variable env : Env.

Lemma run_batches_split (rows : list (PriceRow F)) (l : list (list string)) (k : nat)
    (chunk : list string) st st' :
  l !! k = Some chunk →
  run_batches cfg env rows l st = Some st' →
  ∃ st1 st2, run_batches cfg env rows (take k l) st = Some st1
    ∧ process_batch cfg env rows st1 (k, chunk) = Some st2
    ∧ ∃ rest, fold_opt (process_batch cfg env rows) st2 rest = Some st'.
Proof.
  intros Hk. unfold run_batches.
  rewrite <- (take_drop_middle l k chunk Hk) at 1.
  rewrite imap_app, fold_opt_app. simpl.
  destruct (fold_opt _ st (imap pair (take k l))) as [st1|] eqn:H1; simpl; [|done].
  rewrite length_take_le by (apply lookup_lt_Some in Hk; lia).
  rewrite Nat.add_0_r.
  destruct (process_batch cfg env rows st1 (k, chunk)) as [st2|] eqn:H2; simpl; [|done].
  intros Hrest. exists st1, st2. split; [done|]. split; [done|]. eexists. exact Hrest.
Qed.

(** C4: every row appended by a batch is returned bit for bit by
    [reconstruct] on the index read back from the index file, at the row id
    it was given when appended (the count of the index before the batch plus
    its position in the batch). *)
Theorem reconstruct_round_trip (fs fs' : gmap string (File F))
    (rows : list (PriceRow F)) (symbol_chunks : list (list string))
    (k : nat) (chunk : list string) (st : IndexFlatL2 F * gmap string (File F))
    (acc : BatchAcc) (j : nat) (row : list F) :
  fs !! DATASET_FILE = Some (FDataset rows) →
  build_index cfg env fs = Some fs' →
  chunks (BATCH_SIZE cfg) (all_symbols env) = Some symbol_chunks →
  symbol_chunks !! k = Some chunk →
  run_batches cfg env rows (take k symbol_chunks)
              (index_new (WINDOW_SIZE cfg), clean_start fs) = Some st →
  load_fails env k = false →
  collect_batch cfg rows chunk = Some acc →
  batch_vectors acc ≠ [] →
  X_batch_of acc !! j = Some row →
  ∃ index, fs' !! INDEX_FILE = Some (FIndex index)
         ∧ index_reconstruct index (ix_ntotal st.1 + j) = Some row.
Proof.
  intros Hd Hb Hc Hk Hst Hl Hacc Hne Hj.
  unfold build_index in Hb. rewrite Hd, Hc in Hb. simpl in Hb.
  destruct (run_batches _ _ _ _ _) as [stf|] eqn:Hrun; simpl in Hb; [|done].
  injection Hb as <-.
  destruct (run_batches_split _ _ _ _ _ _ Hk Hrun) as (st1 & st2 & H1 & H2 & rest & H3).
  rewrite Hst in H1. injection H1 as <-.
  exists stf.1. split.
  { rewrite merge_metadata_other by done. by rewrite lookup_insert_eq. }
  assert (index_wf st.1) as Hwf.
  { eapply (batches_keep cfg env rows _ (index_new (WINDOW_SIZE cfg), clean_start fs));
      [apply index_new_wf|exact Hst]. }
  unfold process_batch in H2. simpl in H2. rewrite Hl, Hacc in H2. simpl in H2.
  destruct (batch_vectors acc) as [|v vs] eqn:Hv; [done|].
  destruct (index_add st.1 (X_batch_of acc)) as [index|] eqn:Ha; simpl in H2; [|done].
  assert (st2.1 = index) as Hst2.
  { destruct (if meta_write_fails env k then None else mk_dataframe acc);
      by injection H2 as <-. }
  pose proof (index_add_wf _ _ _ Hwf Ha) as Hwf2.
  pose proof (index_add_new _ _ _ j row Hwf Ha Hj) as Hnew.
  rewrite <- Hst2 in Hwf2, Hnew.
  destruct (batches_keep cfg env rows _ _ _ Hwf2 H3) as (_ & _ & Hold).
  rewrite Hold; [done|].
  rewrite Hst2. apply index_add_inv in Ha as (_ & _ & -> & _).
  apply lookup_lt_Some in Hj. lia.
Qed.
End RoundTrip.

Section ZeroVectors.
Context {F : Type} `{Num F}.
Variable cfg : Config.
Variable env : Env.
#[local] Abbreviation W := (WINDOW_SIZE cfg).
#[local] Abbreviation Hz := (PREDICT_HORIZON cfg).

Lemma batch_step_nonempty (acc acc' : BatchAcc) (g : string * list (PriceRow F)) :
  1 ≤ W → 1 ≤ Hz →
  Forall (λ nw, nw ≠ []) (batch_vectors acc) →
  batch_step cfg acc g = Some acc' →
  Forall (λ nw, nw ≠ []) (batch_vectors acc').
Proof.
  intros HW HH Hacc. unfold batch_step.
  destruct (decide (length (map p_close g.2) < W + Hz)) as [Hlt|Hge].
  - rewrite process_symbol_short by done. simpl. by intros [= <-].
  - rewrite process_symbol_rows by lia. simpl. intros [= <-]. simpl.
    apply Forall_app. split; [done|]. apply Forall_singleton.
    destruct (length (map p_close g.2) + 1 - W - Hz) as [|n] eqn:Hn; [lia|done].
Qed.

Lemma collect_batch_nonempty (rows : list (PriceRow F)) (symbols_batch : list string)
    (acc : BatchAcc) :
  1 ≤ W → 1 ≤ Hz →
  collect_batch cfg rows symbols_batch = Some acc →
  batch_vectors acc ≠ [] → X_batch_of acc ≠ [].
Proof.
  intros HW HH Hc Hne.
  assert (Forall (λ nw, nw ≠ []) (batch_vectors acc)) as Hall.
  { refine (fold_opt_invariant (λ a, Forall (λ nw, nw ≠ []) (batch_vectors a))
                                _ batch_empty acc _ _ _ Hc); [|apply Forall_nil_2].
    intros a x a' Ha Hs. by eapply batch_step_nonempty. }
  unfold X_batch_of. destruct (batch_vectors acc) as [|v vs]; [done|].
  apply Forall_cons in Hall as [Hv _]. simpl.
  destruct v; [done|]. done.
Qed.

Lemma clean_start_no_shard (fs : gmap string (File F)) (index : IndexFlatL2 F) :
  no_shard_yet (index, clean_start fs).
Proof.
  unfold no_shard_yet, clean_start; simpl. split.
  - apply map_lookup_filter_None. left. apply lookup_delete_eq.
  - intros _ name Hp. apply map_lookup_filter_None. right.
    intros x _. simpl. congruence.
Qed.

Lemma process_batch_no_shard (rows : list (PriceRow F)) st chunk st' :
  1 ≤ W → 1 ≤ Hz →
  no_shard_yet st → process_batch cfg env rows st chunk = Some st' → no_shard_yet st'.
Proof.
  intros HW HH [Hm Hp] [->|(acc & _ & Hc & Hne & Ha & Hfs)]%process_batch_cases; [done|].
  pose proof (collect_batch_nonempty _ _ _ HW HH Hc Hne) as HX.
  apply index_add_inv in Ha as (_ & _ & Hn & _).
  split.
  - destruct Hfs as [->|[df ->]]; [done|].
    rewrite lookup_insert_ne; [done|apply part_filename_not_meta].
  - intros H0. destruct (X_batch_of acc); [done|]. simpl in Hn. lia.
Qed.

End ZeroVectors.

Lemma filter_all {A : Type} (P : A → Prop) `{∀ x, Decision (P x)} (l : list A) :
  Forall P l → filter P l = l.
Proof.
  induction 1 as [|x l Hx _ IH]; [done|].
  rewrite filter_cons_True by done. by rewrite IH.
Qed.

Lemma filter_none {A : Type} (P : A → Prop) `{∀ x, Decision (P x)} (l : list A) :
  Forall (λ x, ¬ P x) l → filter P l = [].
Proof.
  induction 1 as [|x l Hx _ IH]; [done|].
  by rewrite filter_cons_False.
Qed.

Lemma first_occurrences_elem (seen l : list string) (s : string) :
  s ∈ first_occurrences seen l → s ∈ l.
Proof.
  revert seen. induction l as [|x l IH]; intros seen; simpl; [done|].
  destruct (bool_decide (x ∈ seen)).
  - intros Hs. right. by eapply IH.
  - intros [->|Hs]%elem_of_cons; [left|right; by eapply IH].
Qed.

Section ShortBatches.
Context {F : Type} `{Num F}.
Variable cfg : Config.
Variable env : Env.

Lemma skip_short_groups (groups : list (string * list (PriceRow F))) (acc : BatchAcc) :
  Forall (λ g, length g.2 < WINDOW_SIZE cfg + PREDICT_HORIZON cfg) groups →
  fold_opt (batch_step cfg) acc groups = Some acc.
Proof.
  induction 1 as [|g groups Hg _ IH]; [done|].
  assert (batch_step cfg acc g = Some acc) as Hstep.
  { unfold batch_step. by rewrite process_symbol_short by (by rewrite length_map). }
  cbn [fold_opt]. by rewrite Hstep.
Qed.

(** A batch none of whose symbols has the rows of one window collects
    nothing. *)
Lemma collect_batch_short (rows : list (PriceRow F)) (symbols_batch : list string) :
  (∀ s, s ∈ symbols_batch →
        length (filter (λ r, p_symbol r = s) rows)
        < WINDOW_SIZE cfg + PREDICT_HORIZON cfg) →
  collect_batch cfg rows symbols_batch = Some batch_empty.
Proof.
  intros Hshort. unfold collect_batch. apply skip_short_groups.
  unfold partition_by_symbol. apply Forall_forall. intros g Hg.
  apply list_elem_of_fmap in Hg as (s & -> & Hs). simpl.
  apply first_occurrences_elem, list_elem_of_fmap in Hs as (r & -> & Hr).
  assert (load_batch rows symbols_batch
          ≡ₚ filter (λ r, p_symbol r ∈ symbols_batch) rows) as Hperm
    by apply merge_sort_Permutation.
  rewrite Hperm in Hr. apply list_elem_of_filter in Hr as [Hin _].
  rewrite Hperm, list_filter_filter.
  eapply Nat.le_lt_trans; [|apply (Hshort _ Hin)].
  rewrite (list_filter_iff _ (λ x, p_symbol x ∈ symbols_batch ∧ p_symbol x = p_symbol r))
    by (intros x; tauto).
  rewrite <- list_filter_filter. apply length_filter.
Qed.

Lemma process_batch_short (rows : list (PriceRow F)) st (chunk : nat * list string) :
  (∀ s, s ∈ chunk.2 →
        length (filter (λ r, p_symbol r = s) rows)
        < WINDOW_SIZE cfg + PREDICT_HORIZON cfg) →
  process_batch cfg env rows st chunk = Some st.
Proof.
  intros Hshort. unfold process_batch. destruct (load_fails env chunk.1); [done|].
  by rewrite collect_batch_short.
Qed.
End ShortBatches.

Lemma Sorted_take {A : Type} (R : relation A) (l : list A) (k : nat) :
  Sorted R l → Sorted R (take k l).
Proof.
  intros Hs. revert k. induction Hs as [|x l Hs IH Hhd]; intros [|k]; simpl;
    try constructor; [apply IH|].
  destruct Hhd; destruct k; simpl; by constructor.
Qed.

Lemma Sorted_StronglySorted_on {A : Type} (R : relation A) (l : list A) :
  (∀ a b c, a ∈ l → b ∈ l → c ∈ l → R a b → R b c → R a c) →
  Sorted R l → StronglySorted R l.
Proof.
  intros Htr Hs. induction Hs as [|x l Hs IH Hhd]; constructor.
  - apply IH. intros a b c Ha Hb Hc. apply Htr; by right.
  - destruct Hhd as [|y l Hxy]; [constructor|].
    assert (StronglySorted R (y :: l)) as Hss.
    { apply IH. intros a b c Ha Hb Hc. apply Htr; by right. }
    apply StronglySorted_inv in Hss as [_ Hy].
    constructor; [done|].
    rewrite Forall_forall in Hy |- *. intros z Hz.
    apply (Htr x y z); [left|right; left|right; by right|done|by apply Hy].
Qed.

Section SearchOrder.
Context {F : Type} `{Num F}.
Implicit Types idx : IndexFlatL2 F.

#[local] Instance hit_le_total : Total (hit_le (F := F)).
Proof.
  intros [i a] [j b]. unfold hit_le; simpl.
  destruct (f_ltb a b) eqn:Hab; [by left; left|].
  destruct (f_ltb b a) eqn:Hba; [by right; left|].
  destruct (Nat.le_total i j); [left|right]; by right.
Qed.

Lemma dist_comparable_elim (D : list F) (a b c : F) :
  dist_comparable D → a ∈ D → b ∈ D → c ∈ D →
  (f_ltb a b = true → f_ltb b c = true → f_ltb a c = true)
  ∧ (f_ltb a c = true → f_ltb a b = true ∨ f_ltb b c = true).
Proof.
  unfold dist_comparable. rewrite Forall_forall. intros HD Ha Hb Hc.
  pose proof (HD _ Ha) as H1. rewrite Forall_forall in H1.
  pose proof (H1 _ Hb) as H2. rewrite Forall_forall in H2.
  by apply H2.
Qed.

Lemma hit_le_trans_on (D : list F) (a b c : hit (F := F)) :
  dist_comparable D → a.2 ∈ D → b.2 ∈ D → c.2 ∈ D →
  hit_le a b → hit_le b c → hit_le a c.
Proof.
  intros HD Ha Hb Hc.
  destruct (dist_comparable_elim D _ _ _ HD Ha Hb Hc) as [Htr _].
  destruct (dist_comparable_elim D _ _ _ HD Ha Hc Hb) as [_ Hacb].
  destruct (dist_comparable_elim D _ _ _ HD Hb Ha Hc) as [_ Hbac].
  destruct (dist_comparable_elim D _ _ _ HD Hc Hb Ha) as [_ Hcba].
  unfold hit_le. intros [Hab|[Hba Hij]] [Hbc|[Hcb Hjk]].
  - left. by apply Htr.
  - left. destruct (Hacb Hab) as [G|G]; congruence.
  - left. destruct (Hbac Hbc) as [G|G]; congruence.
  - right. split; [|lia].
    destruct (f_ltb c.2 a.2) eqn:Hca; [|done].
    destruct (Hcba eq_refl) as [G|G]; congruence.
Qed.

Lemma scored_rows_elem idx (q : list F) (i : nat) (d : F) :
  (i, d) ∈ scored_rows idx q ↔ ∃ v, index_rows idx !! i = Some v ∧ d = l2_sqr q v.
Proof.
  unfold scored_rows. rewrite elem_of_lookup_imap. split.
  - intros (j & v & [= -> ->] & Hv). eauto.
  - intros (v & Hv & ->). eauto.
Qed.

Lemma length_index_rows idx : length (index_rows idx) = ix_ntotal idx.
Proof. unfold index_rows. by rewrite length_map, length_seq. Qed.

Lemma index_search_hits (idx : IndexFlatL2 F) (q : list F) (k : nat)
    (hits : list (hit (F := F))) :
  index_search idx q k = Some hits →
  hits = take k (merge_sort hit_le (scored_rows idx q))
  ∧ Sorted hit_le hits
  ∧ length hits = min k (ix_ntotal idx)
  ∧ (∀ i d, (i, d) ∈ hits → ∃ v, index_rows idx !! i = Some v ∧ d = l2_sqr q v).
Proof.
  unfold index_search. destruct (length q =? ix_d idx); [|done].
  intros [= <-].
  pose proof (merge_sort_Permutation hit_le (scored_rows idx q)) as Hperm.
  split; [done|].
  split; [apply Sorted_take, Sorted_merge_sort, _|].
  split.
  { rewrite length_take, Hperm. unfold scored_rows.
    by rewrite length_imap, length_index_rows. }
  intros i d Hin%subseteq_take. rewrite Hperm in Hin. by apply scored_rows_elem.
Qed.

End SearchOrder.

Section PySort.
Context {A : Type} (key : A → Z).

Lemma insert_by_Permutation (x : A) (l : list A) : insert_by key x l ≡ₚ x :: l.
Proof.
  induction l as [|y l IH]; simpl; [done|].
  destruct (key x <=? key y)%Z; [done|]. by rewrite IH, Permutation_swap.
Qed.

Lemma py_sort_by_Permutation (l : list A) : py_sort_by key l ≡ₚ l.
Proof.
  induction l as [|x l IH]; simpl; [done|].
  unfold py_sort_by in *. simpl. by rewrite insert_by_Permutation, IH.
Qed.

Lemma insert_by_Sorted (x : A) (l : list A) :
  Sorted (λ a b, (key a ≤ key b)%Z) l →
  Sorted (λ a b, (key a ≤ key b)%Z) (insert_by key x l).
Proof.
  induction 1 as [|y l Hs IH Hhd]; simpl; [by repeat constructor|].
  destruct (Z.leb_spec (key x) (key y)).
  - constructor; [by constructor|by constructor].
  - constructor; [done|].
    destruct Hhd as [|z l Hyz]; simpl in *.
    + constructor. lia.
    + destruct (Z.leb_spec (key x) (key z)); constructor; lia.
Qed.

Lemma py_sort_by_Sorted (l : list A) :
  Sorted (λ a b, (key a ≤ key b)%Z) (py_sort_by key l).
Proof.
  induction l as [|x l IH]; [constructor|]. by apply insert_by_Sorted.
Qed.
End PySort.

Lemma order_map_snoc (l : list Z) (y : Z) :
  order_map (l ++ [y]) = <[y := length l]> (order_map l).
Proof.
  unfold order_map. rewrite imap_app, foldl_app. simpl. by rewrite Nat.add_0_r.
Qed.

Lemma order_map_last (l : list Z) (p : nat) (x : Z) :
  l !! p = Some x → (∀ j, p < j → l !! j ≠ Some x) → order_map l !! x = Some p.
Proof.
  revert p. induction l as [|y l IH] using rev_ind; intros p Hp Hlast; [done|].
  rewrite order_map_snoc.
  destruct (decide (p = length l)) as [->|Hne].
  - rewrite lookup_app_r, Nat.sub_diag in Hp by done. injection Hp as ->.
    by rewrite lookup_insert_eq.
  - assert (p < length l) as Hlt.
    { apply lookup_lt_Some in Hp. rewrite length_app in Hp. simpl in Hp. lia. }
    rewrite lookup_app_l in Hp by done.
    rewrite lookup_insert_ne.
    + apply IH; [done|]. intros j Hj Hx. apply (Hlast j Hj).
      rewrite lookup_app_l; [done|]. by eapply lookup_lt_Some.
    + intros ->. apply (Hlast (length l) Hlt).
      by rewrite lookup_app_r, Nat.sub_diag.
Qed.

Lemma Sorted_le_seq (a n : nat) : Sorted le (seq a n).
Proof.
  revert a. induction n as [|n IH]; intros a; simpl; [constructor|].
  constructor; [apply IH|]. destruct n; simpl; constructor. lia.
Qed.

Lemma imap_pair_fst {A : Type} (l : list A) : (imap pair l).*1 = seq 0 (length l).
Proof.
  apply list_eq. intros i. rewrite list_lookup_fmap, list_lookup_imap.
  destruct (l !! i) as [x|] eqn:Hx; simpl.
  - symmetry. apply lookup_seq. split; [done|]. by eapply lookup_lt_Some.
  - symmetry. apply lookup_ge_None. rewrite length_seq. by apply lookup_ge_None.
Qed.

Lemma imap_pair_elem {A : Type} (l : list A) (i : nat) (x : A) :
  (i, x) ∈ imap pair l ↔ l !! i = Some x.
Proof.
  rewrite elem_of_lookup_imap. split.
  - by intros (j & y & [= -> ->] & Hy).
  - intros Hx. eauto.
Qed.

Section QueryFacts.
Context {F : Type} `{Num F}.

Lemma plot_loop_all (index : IndexFlatL2 F) (acc : list (Match F))
    (l : list (nat * (nat * MetaRow F))) :
  Forall (λ x, x.1 < 9 ∧ x.2.1 < ix_ntotal index) l →
  plot_loop index acc l = inr (acc ++ map (λ x, match_of index x.2.1 x.2.2) l).
Proof.
  intros Hl. revert acc. induction Hl as [|x l [Hi Hid] _ IH]; intros acc; simpl.
  - by rewrite app_nil_r.
  - unfold plot_step, index_reconstruct.
    destruct (Nat.leb_spec 9 x.1); [lia|].
    destruct (Nat.ltb_spec x.2.1 (ix_ntotal index)); [|lia].
    rewrite IH. by rewrite <- app_assoc.
Qed.

Lemma scored_rows_ids (index : IndexFlatL2 F) (q : list F) :
  (scored_rows index q).*1 = seq 0 (ix_ntotal index).
Proof.
  rewrite <- (length_index_rows index). unfold scored_rows.
  apply list_eq. intros i. rewrite list_lookup_fmap, list_lookup_imap.
  destruct (index_rows index !! i) as [x|] eqn:Hx; simpl.
  - symmetry. apply lookup_seq. split; [done|]. by eapply lookup_lt_Some.
  - symmetry. apply lookup_ge_None. rewrite length_seq. by apply lookup_ge_None.
Qed.

Lemma order_map_position (ids : list nat) (n p i : nat) :
  NoDup ids → ids !! p = Some i →
  order_map ((Z.of_nat <$> ids) ++ replicate n (-1)%Z) !! Z.of_nat i = Some p.
Proof.
  intros Hnd Hp. apply order_map_last.
  - rewrite lookup_app_l by (rewrite length_fmap; by eapply lookup_lt_Some).
    by rewrite list_lookup_fmap, Hp.
  - intros j Hj Hx. apply lookup_app_Some in Hx as [Hx|[_ Hx]].
    + rewrite list_lookup_fmap in Hx.
      destruct (ids !! j) as [i'|] eqn:Hi'; simpl in Hx; [|done].
      assert (i' = i) as -> by (injection Hx; lia).
      pose proof (NoDup_lookup _ _ _ _ Hnd Hp Hi'). lia.
    + apply lookup_replicate in Hx as [Hx _]. lia.
Qed.

Lemma rank_restored (ids : list nat) (N K : nat) (meta : list (MetaRow F)) :
  ids ≡ₚ seq 0 N → length meta = N →
  let found_ids := (Z.of_nat <$> ids) ++ replicate (K - N) (-1)%Z in
  let R := py_sort_by
             (λ x : nat * MetaRow F,
                Z.of_nat (default 999 (order_map found_ids !! Z.of_nat x.1)))
             (filter (λ r : nat * MetaRow F, Z.of_nat r.1 ∈ found_ids) (imap pair meta)) in
  R.*1 = ids ∧ ∀ x, x ∈ R → meta !! x.1 = Some x.2.
Proof.
  intros Hperm Hlen found_ids.
  assert (NoDup ids) as Hnd by (rewrite Hperm; apply NoDup_seq).
  assert (∀ i, i ∈ ids ↔ i < N) as Hids.
  { intros i. rewrite Hperm, list_elem_of_lookup. setoid_rewrite lookup_seq.
    split; [intros (j & -> & Hj); lia|]. intros Hi. exists i. by split. }
  set (pos := λ i : nat, default 999 (order_map found_ids !! Z.of_nat i)).
  assert (∀ p i, ids !! p = Some i → pos i = p) as Hpos.
  { intros p i Hp. unfold pos, found_ids. by rewrite (order_map_position _ _ p). }
  rewrite filter_all; cycle 1.
  { apply Forall_forall. intros [i m] Him%imap_pair_elem. simpl.
    apply elem_of_app. left. apply list_elem_of_fmap. exists i. split; [done|].
    apply Hids. rewrite <- Hlen. by eapply lookup_lt_Some. }
  intros R.
  assert (R ≡ₚ imap pair meta) as HR by apply py_sort_by_Permutation.
  assert (∀ x, x ∈ R → meta !! x.1 = Some x.2) as Hmeta.
  { intros [i m]. rewrite HR. by intros ?%imap_pair_elem. }
  split; [|done].
  assert (R.*1 ≡ₚ ids) as HR1.
  { rewrite HR, imap_pair_fst, Hlen. done. }
  assert (pos <$> ids = seq 0 N) as Hposids.
  { assert (length ids = N) as Hl by (rewrite Hperm; apply length_seq).
    apply list_eq. intros p. rewrite list_lookup_fmap.
    destruct (ids !! p) as [i|] eqn:Hp; simpl.
    - rewrite (Hpos _ _ Hp). symmetry. apply lookup_seq. split; [done|].
      rewrite <- Hl. by eapply lookup_lt_Some.
    - symmetry. apply lookup_ge_None. rewrite length_seq, <- Hl. by apply lookup_ge_None. }
  assert (pos <$> R.*1 = seq 0 N) as HP.
  { apply (Sorted_unique le).
    - rewrite <- list_fmap_compose.
      eapply (Sorted_fmap _ _ _ R); [|apply py_sort_by_Sorted].
      intros x y Hxy. simpl in *. unfold pos. lia.
    - apply Sorted_le_seq.
    - by rewrite HR1, Hposids. }
  apply list_eq. intros j.
  destruct (R.*1 !! j) as [i|] eqn:Hj.
  - assert (i ∈ ids) as (p & Hp)%list_elem_of_lookup.
    { rewrite <- HR1. by eapply list_elem_of_lookup_2. }
    assert ((pos <$> R.*1) !! j = Some (pos i)) as Hpj
      by (by rewrite list_lookup_fmap, Hj).
    rewrite HP in Hpj. apply lookup_seq in Hpj as [Hpj _].
    rewrite (Hpos _ _ Hp) in Hpj. simpl in Hpj. by subst.
  - symmetry. apply lookup_ge_None. apply lookup_ge_None in Hj.
    by rewrite <- HR1.
Qed.

Lemma run_query_few_rows (cfg : Config) (index : IndexFlatL2 F) (meta : list (MetaRow F))
    (query_prices : list F) :
  1 ≤ ix_ntotal index → ix_ntotal index < TOP_K cfg → ix_ntotal index ≤ 9 →
  length meta = ix_ntotal index →
  length query_prices = ix_d index →
  ∃ hits results,
    index_search index (query_vector_of query_prices) (TOP_K cfg) = Some hits
    ∧ run_query cfg index meta query_prices
      = PrintReport results (win_rate_of (map r_future_r results))
                    (avg_ret_of (map r_future_r results))
    ∧ length results = ix_ntotal index
    ∧ map r_row_id results = hits.*1
    ∧ ∀ res, res ∈ results →
        ∃ m, meta !! r_row_id res = Some m ∧ res = match_of index (r_row_id res) m.
Proof.
  intros HN HK H9 Hmeta Hq.
  set (hits := merge_sort hit_le (scored_rows index (query_vector_of query_prices))).
  assert (hits.*1 ≡ₚ seq 0 (ix_ntotal index)) as Hperm.
  { unfold hits. by rewrite merge_sort_Permutation, scored_rows_ids. }
  assert (length hits = ix_ntotal index) as Hlen.
  { transitivity (length hits.*1); [by rewrite length_fmap|].
    by rewrite Hperm, length_seq. }
  assert (index_search index (query_vector_of query_prices) (TOP_K cfg) = Some hits)
    as Hsearch.
  { unfold index_search, query_vector_of, query_norm_of.
    rewrite !length_map, Hq, Nat.eqb_refl. f_equal. apply take_ge. fold hits. lia. }
  destruct (rank_restored hits.*1 (ix_ntotal index) (TOP_K cfg) meta Hperm Hmeta)
    as [Hrank Hrows].
  unfold run_query. destruct (Nat.eqb_spec (TOP_K cfg) 0); [lia|].
  rewrite Hsearch. unfold search_ids.
  replace (map (λ h : hit, Z.of_nat h.1) hits) with (Z.of_nat <$> hits.*1)
    by (by rewrite <- list_fmap_compose).
  rewrite Hlen.
  set (R := py_sort_by _ _) in *.
  assert (length R = ix_ntotal index) as HlenR.
  { transitivity (length R.*1); [by rewrite length_fmap|].
    by rewrite Hrank, length_fmap. }
  rewrite plot_loop_all; cycle 1.
  { apply Forall_forall. intros [i [id m]] Hx%imap_pair_elem. simpl.
    split.
    - apply lookup_lt_Some in Hx. lia.
    - apply list_elem_of_lookup_2, Hrows in Hx. simpl in Hx.
      apply lookup_lt_Some in Hx. lia. }
  simpl. set (results := map _ (imap pair R)).
  assert (results = map (λ y, match_of index y.1 y.2) R) as Hres.
  { unfold results. apply list_eq. intros j.
    rewrite !list_lookup_fmap, list_lookup_imap. by destruct (R !! j). }
  exists hits, results. split; [done|].
  assert (length results = ix_ntotal index) as Hlr by (by rewrite Hres, length_map).
  split.
  { destruct results as [|res results']; [simpl in Hlr; lia|done]. }
  split; [done|]. split.
  { rewrite Hres, <- Hrank. rewrite <- list_fmap_compose. done. }
  intros res. rewrite Hres. intros ([id m] & -> & Hin)%list_elem_of_fmap.
  exists m. split; [by apply Hrows in Hin|done].
Qed.
End QueryFacts.

Section QueryTheorems.
Context {F : Type} `{Num F}.
Variable cfg : Config.


(** C9 (amended): when the index file or the metadata file is absent the
    query prints its index-not-built message and returns; when fewer than
    [W] closes are available for the target symbol it prints its not-enough-
    data message and returns; in both cases the call returns [None], raises
    nothing, and no search is performed. *)
Theorem query_guard_messages (fs : gmap string (File F)) (target_symbol : string) :
  ((fs !! INDEX_FILE = None ∨ fs !! META_FILE = None) →
     search_pattern cfg fs target_symbol = PrintNoIndex)
  ∧ (∀ index meta df_prices,
       fs !! INDEX_FILE = Some (FIndex index) →
       fs !! META_FILE = Some (FMeta meta) →
       fs !! DATASET_FILE = Some (FDataset df_prices) →
       length (filter (λ r, p_symbol r = target_symbol) df_prices) < WINDOW_SIZE cfg →
       search_pattern cfg fs target_symbol = PrintNoData)
  ∧ (∀ o : Outcome F, o = PrintNoIndex ∨ o = PrintNoData →
       call_result o = ReturnsNone ∧ searched o = false).
Proof.
  split; [|split].
  - unfold search_pattern. intros [-> | ->]; [done|]. by destruct (fs !! INDEX_FILE).
  - intros index meta df_prices Hi Hm Hd Hlt. unfold search_pattern.
    rewrite Hi, Hm, Hd, length_drop.
    by destruct (Nat.ltb_spec
                   (length (filter (λ r, p_symbol r = target_symbol) df_prices)
                    - (length (filter (λ r, p_symbol r = target_symbol) df_prices)
                       - WINDOW_SIZE cfg))
                   (WINDOW_SIZE cfg)); [|lia].
  - by intros o [-> | ->].
Qed.
End QueryTheorems.

Lemma chunks_single {A : Type} (n : nat) (l : list A) :
  1 ≤ length l → length l ≤ n → chunks n l = Some [l].
Proof.
  intros H1 Hn. unfold chunks. destruct (Nat.eqb_spec n 0); [lia|].
  destruct l as [|x l]; [simpl in H1; lia|].
  simpl length. unfold chunks_aux; fold (@chunks_aux A).
  rewrite take_ge, drop_ge by done. by destruct (length l).
Qed.

Section Determinism.
Context {F : Type} `{Num F}.
Variable cfg : Config.

Lemma load_batch_members (rows : list (PriceRow F)) (s1 s2 : list string) :
  (∀ s, s ∈ s1 ↔ s ∈ s2) → load_batch rows s1 = load_batch rows s2.
Proof. intros Hs. unfold load_batch. f_equal. apply list_filter_iff. intros r. apply Hs. Qed.

(** C2 (amended): two runs on the same files with the same failures produce
    the same files whenever [unique()] lists the symbols in the same order in
    both, or in any two orders when all symbols fit in one batch. *)
Theorem build_deterministic (lf wf : nat → bool) (fs : gmap string (File F))
    (rows : list (PriceRow F)) (symbols1 symbols2 : list string) :
  fs !! DATASET_FILE = Some (FDataset rows) →
  unique_symbols rows symbols1 → unique_symbols rows symbols2 →
  symbols1 = symbols2 ∨ length symbols1 ≤ BATCH_SIZE cfg →
  build_index cfg {| all_symbols := symbols1; load_fails := lf; meta_write_fails := wf |} fs
  = build_index cfg {| all_symbols := symbols2; load_fails := lf; meta_write_fails := wf |} fs.
Proof.
  intros Hd [Hnd1 Hm1] [Hnd2 Hm2] [->|Hle]; [done|].
  assert (symbols1 ≡ₚ symbols2) as Hperm.
  { apply NoDup_Permutation; [done..|]. intros s. by rewrite Hm1, Hm2. }
  assert (length symbols2 = length symbols1) as Hlen by (by rewrite Hperm).
  unfold build_index. rewrite Hd. simpl.
  destruct (decide (length symbols1 = 0)) as [Hz|Hnz].
  { destruct symbols1; [|done]. by destruct symbols2. }
  rewrite !chunks_single by lia. simpl. unfold run_batches. simpl.
  unfold process_batch. simpl. unfold collect_batch.
  rewrite (load_batch_members rows symbols1 symbols2); [done|].
  intros s. by rewrite Hm1, Hm2.
Qed.
End Determinism.

Lemma wide_name_inj (i j : nat) : wide_name i = wide_name j → i = j.
Proof. unfold wide_name. simpl. intros [= Hp]. by apply (inj pretty). Qed.

Lemma price_rows_symbol (s : string) (closes : list float) (r : PriceRow float) :
  r ∈ price_rows s closes → p_symbol r = s.
Proof.
  unfold price_rows. intros (i & c & -> & _)%elem_of_lookup_imap. done.
Qed.

Lemma filter_blocks (P : PriceRow float → Prop) `{∀ r, Decision (P r)}
    (Q : nat → Prop) `{∀ i, Decision (Q i)} (l : list nat) :
  (∀ i r, r ∈ wide_block i → P r ↔ Q i) →
  filter P (concat (map wide_block l)) = concat (map wide_block (filter Q l)).
Proof.
  intros HPQ. induction l as [|i l IH]; simpl; [done|].
  rewrite filter_app, IH. destruct (decide (Q i)) as [Hq|Hq].
  - rewrite (filter_cons_True Q) by done. simpl. f_equal.
    apply filter_all, Forall_forall. intros r Hr. by apply (HPQ i).
  - rewrite (filter_cons_False Q) by done.
    rewrite (filter_none P (wide_block i)); [done|].
    apply Forall_forall. intros r Hr HP. by apply Hq, (HPQ i r).
Qed.

Lemma wide_rows_blocks : wide_rows = concat (map wide_block (seq 0 wide_count)).
Proof. reflexivity. Qed.

Lemma filter_seq_range (a n m : nat) :
  filter (λ j, a ≤ j < a + n) (seq 0 m) = seq a (min n (m - a)).
Proof.
  induction m as [|m IH]; [by rewrite Nat.min_0_r|].
  rewrite seq_S, filter_app, IH. simpl.
  destruct (decide (a ≤ m < a + n)) as [Hm|Hm].
  - rewrite filter_cons_True by done. rewrite filter_nil.
    replace (min n (S m - a)) with (S (min n (m - a))) by lia.
    rewrite seq_S. f_equal. f_equal. lia.
  - rewrite filter_cons_False by done. rewrite filter_nil, app_nil_r.
    f_equal. lia.
Qed.

Lemma wide_rows_of_range (a n : nat) :
  a + n ≤ wide_count →
  filter (λ r, p_symbol r ∈ map wide_name (seq a n)) wide_rows
  = concat (map wide_block (seq a n)).
Proof.
  intros Hle. rewrite wide_rows_blocks.
  rewrite (filter_blocks _ (λ j, a ≤ j < a + n)).
  - rewrite filter_seq_range. do 3 f_equal. lia.
  - intros i r Hr%price_rows_symbol. rewrite Hr, list_elem_of_fmap. split.
    + intros (j & Hj%wide_name_inj & Hin). subst j. apply elem_of_seq in Hin. lia.
    + intros Hi. exists i. split; [done|]. apply elem_of_seq. lia.
Qed.

Lemma wide_rows_of_symbol (i : nat) :
  i < wide_count →
  filter (λ r, p_symbol r = wide_name i) wide_rows = wide_block i.
Proof.
  intros Hi. rewrite wide_rows_blocks.
  rewrite (filter_blocks _ (λ j, i ≤ j < i + 1)).
  - rewrite filter_seq_range. replace (min 1 (wide_count - i)) with 1 by lia.
    simpl. by rewrite app_nil_r.
  - intros j r Hr%price_rows_symbol. rewrite Hr. split.
    + intros ->%wide_name_inj. lia.
    + intros Hj. f_equal. lia.
Qed.

Lemma wide_chunks :
  chunks (BATCH_SIZE default_config) wide_symbols = Some (map wide_chunk (seq 0 11)).
Proof. vm_compute. reflexivity. Qed.

(** Every batch but 2 and 10 holds symbols of one close only. *)
Lemma wide_chunk_short (k : nat) (s : string) :
  k < 11 → k ≠ 2 → k ≠ 10 → s ∈ wide_chunk k →
  length (filter (λ r, p_symbol r = s) wide_rows)
  < WINDOW_SIZE default_config + PREDICT_HORIZON default_config.
Proof.
  intros Hk H2 H10 (i & -> & Hi%elem_of_seq)%list_elem_of_fmap.
  unfold wide_count in Hi.
  rewrite wide_rows_of_symbol by (unfold wide_count; lia).
  unfold wide_block, price_rows. rewrite length_imap. unfold wide_closes.
  destruct (Nat.eqb_spec i 1000); [lia|].
  destruct (Nat.eqb_spec i 5000); [lia|].
  simpl. lia.
Qed.

(** Batch 2 collects the one window of [S1000], batch 10 that of [S5000]. *)
Lemma wide_batch_2 :
  (λ acc : BatchAcc,
     (batch_vectors acc ≫= id, X_batch_of acc, mk_dataframe acc, col_symbol acc))
    <$> collect_batch default_config wide_rows (wide_chunk 2)
  = Some ([shape_vector (map float_of_nat (reverse (seq 6 30)))],
          [falling_shape],
          Some [ {| m_symbol := "S1000"; m_date := 29;
                    m_future_return := simple_return 1%float 6%float |} ],
          ["S1000"]).
Proof.
  unfold collect_batch, load_batch, wide_chunk.
  rewrite wide_rows_of_range by (vm_compute; lia).
  vm_compute. reflexivity.
Qed.

Lemma wide_batch_10 :
  (λ acc : BatchAcc,
     (batch_vectors acc ≫= id, X_batch_of acc, mk_dataframe acc, col_symbol acc))
    <$> collect_batch default_config wide_rows (wide_chunk 10)
  = Some ([shape_vector (map float_of_nat (seq 1 30))],
          [rising_shape],
          Some [ {| m_symbol := "S5000"; m_date := 29;
                    m_future_return := simple_return 35%float 30%float |} ],
          ["S5000"]).
Proof.
  unfold collect_batch, load_batch, wide_chunk.
  rewrite wide_rows_of_range by (vm_compute; lia).
  vm_compute. reflexivity.
Qed.

Lemma process_batch_collected {F : Type} `{Num F} (cfg : Config) (env : Env)
    (rows : list (PriceRow F)) (st : IndexFlatL2 F * gmap string (File F))
    (k : nat) (symbols_batch : list string) (acc : BatchAcc)
    (index : IndexFlatL2 F) (df : list (MetaRow F)) :
  load_fails env k = false → meta_write_fails env k = false →
  collect_batch cfg rows symbols_batch = Some acc →
  batch_vectors acc ≠ [] →
  index_add st.1 (X_batch_of acc) = Some index →
  mk_dataframe acc = Some df →
  process_batch cfg env rows st (k, symbols_batch)
  = Some (index, <[part_filename k := FMeta df]> st.2).
Proof.
  intros Hl Hw Hc Hne Ha Hdf. unfold process_batch. simpl.
  rewrite Hl, Hc. simpl. destruct (batch_vectors acc); [done|].
  rewrite Ha. simpl. by rewrite Hw, Hdf.
Qed.

Lemma wide_index_add_2 :
  index_add (index_new 30) [falling_shape]
  = Some {| ix_d := 30; ix_ntotal := 1; ix_xb := falling_shape |}.
Proof. vm_compute. reflexivity. Qed.

Lemma wide_index_add_10 :
  index_add {| ix_d := 30; ix_ntotal := 1; ix_xb := falling_shape |} [rising_shape]
  = Some {| ix_d := 30; ix_ntotal := 2; ix_xb := falling_shape ++ rising_shape |}.
Proof. vm_compute. reflexivity. Qed.

Lemma wide_skip (k : nat) (st : IndexFlatL2 float * gmap string (File float)) :
  k < 11 → k ≠ 2 → k ≠ 10 →
  process_batch default_config (calm_env wide_symbols) wide_rows st (k, wide_chunk k)
  = Some st.
Proof.
  intros Hk H2 H10. apply process_batch_short. intros s Hs.
  by apply (wide_chunk_short k).
Qed.

Lemma wide_step_2 (fs : gmap string (File float)) :
  process_batch default_config (calm_env wide_symbols) wide_rows
    (index_new 30, fs) (2, wide_chunk 2)
  = Some ({| ix_d := 30; ix_ntotal := 1; ix_xb := falling_shape |},
          <[part_filename 2 :=
              FMeta [ {| m_symbol := "S1000"; m_date := 29;
                         m_future_return := simple_return 1%float 6%float |} ]]> fs).
Proof.
  pose proof wide_batch_2 as H2.
  destruct (collect_batch default_config wide_rows (wide_chunk 2)) as [acc2|] eqn:Hc2;
    [|discriminate H2].
  injection H2 as Hv2 HX2 Hdf2 Hs2.
  apply (process_batch_collected default_config (calm_env wide_symbols) wide_rows
           (index_new 30, fs) 2 (wide_chunk 2) acc2).
  - reflexivity.
  - reflexivity.
  - exact Hc2.
  - intros Hnil. rewrite Hnil in Hv2. discriminate Hv2.
  - cbn [fst]. rewrite HX2. apply wide_index_add_2.
  - exact Hdf2.
Qed.

Lemma wide_step_10 (fs : gmap string (File float)) :
  process_batch default_config (calm_env wide_symbols) wide_rows
    ({| ix_d := 30; ix_ntotal := 1; ix_xb := falling_shape |}, fs) (10, wide_chunk 10)
  = Some ({| ix_d := 30; ix_ntotal := 2; ix_xb := falling_shape ++ rising_shape |},
          <[part_filename 10 :=
              FMeta [ {| m_symbol := "S5000"; m_date := 29;
                         m_future_return := simple_return 35%float 30%float |} ]]> fs).
Proof.
  pose proof wide_batch_10 as H10.
  destruct (collect_batch default_config wide_rows (wide_chunk 10)) as [acc10|] eqn:Hc10;
    [|discriminate H10].
  injection H10 as Hv10 HX10 Hdf10 Hs10.
  apply (process_batch_collected default_config (calm_env wide_symbols) wide_rows
           ({| ix_d := 30; ix_ntotal := 1; ix_xb := falling_shape |}, fs) 10
           (wide_chunk 10) acc10).
  - reflexivity.
  - reflexivity.
  - exact Hc10.
  - intros Hnil. rewrite Hnil in Hv10. discriminate Hv10.
  - cbn [fst]. rewrite HX10. apply wide_index_add_10.
  - exact Hdf10.
Qed.

Lemma fold_opt_step {A B : Type} (f : A → B → option A) (a a' : A) (x : B) (l : list B) :
  f a x = Some a' → fold_opt f a (x :: l) = fold_opt f a' l.
Proof. intros Hf. cbn [fold_opt]. by rewrite Hf. Qed.

Lemma wide_run_batches (fs : gmap string (File float)) :
  run_batches default_config (calm_env wide_symbols) wide_rows
              (map wide_chunk (seq 0 11)) (index_new 30, fs)
  = Some ({| ix_d := 30; ix_ntotal := 2; ix_xb := falling_shape ++ rising_shape |},
          <[part_filename 10 :=
              FMeta [ {| m_symbol := "S5000"; m_date := 29;
                         m_future_return := simple_return 35%float 30%float |} ]]>
            (<[part_filename 2 :=
                 FMeta [ {| m_symbol := "S1000"; m_date := 29;
                            m_future_return := simple_return 1%float 6%float |} ]]>
               fs)).
Proof.
  unfold run_batches.
  change (imap pair (map wide_chunk (seq 0 11)))
    with [(0, wide_chunk 0); (1, wide_chunk 1); (2, wide_chunk 2); (3, wide_chunk 3);
          (4, wide_chunk 4); (5, wide_chunk 5); (6, wide_chunk 6); (7, wide_chunk 7);
          (8, wide_chunk 8); (9, wide_chunk 9); (10, wide_chunk 10)].
  etrans; [apply fold_opt_step, (wide_skip 0); lia|].
  etrans; [apply fold_opt_step, (wide_skip 1); lia|].
  etrans; [apply fold_opt_step, wide_step_2|].
  etrans; [apply fold_opt_step, (wide_skip 3); lia|].
  etrans; [apply fold_opt_step, (wide_skip 4); lia|].
  etrans; [apply fold_opt_step, (wide_skip 5); lia|].
  etrans; [apply fold_opt_step, (wide_skip 6); lia|].
  etrans; [apply fold_opt_step, (wide_skip 7); lia|].
  etrans; [apply fold_opt_step, (wide_skip 8); lia|].
  etrans; [apply fold_opt_step, (wide_skip 9); lia|].
  etrans; [apply fold_opt_step, wide_step_10|].
  reflexivity.
Qed.

Lemma wide_chunk_2 : take 500 (drop 1000 wide_symbols) = wide_chunk 2.
Proof. vm_compute. reflexivity. Qed.

Lemma build_index_steps {F : Type} `{Num F} (cfg : Config) (env : Env)
    (fs : gmap string (File F)) (rows : list (PriceRow F))
    (symbol_chunks : list (list string)) (st : IndexFlatL2 F * gmap string (File F)) :
  fs !! DATASET_FILE = Some (FDataset rows) →
  chunks (BATCH_SIZE cfg) (all_symbols env) = Some symbol_chunks →
  run_batches cfg env rows symbol_chunks (index_new (WINDOW_SIZE cfg), clean_start fs)
  = Some st →
  build_index cfg env fs = Some (merge_metadata (<[INDEX_FILE := FIndex st.1]> st.2)).
Proof.
  intros Hd Hc Hr. unfold build_index. rewrite Hd, Hc. simpl. by rewrite Hr.
Qed.

Lemma wide_build :
  build_index default_config (calm_env wide_symbols) (dataset_only wide_rows)
  = Some (merge_metadata
            (<[INDEX_FILE :=
                 FIndex {| ix_d := 30; ix_ntotal := 2;
                           ix_xb := falling_shape ++ rising_shape |}]>
               (<[part_filename 10 :=
                    FMeta [ {| m_symbol := "S5000"; m_date := 29;
                               m_future_return := simple_return 35%float 30%float |} ]]>
                  (<[part_filename 2 :=
                       FMeta [ {| m_symbol := "S1000"; m_date := 29;
                                  m_future_return := simple_return 1%float 6%float |} ]]>
                     (clean_start (dataset_only wide_rows)))))).
Proof.
  apply (build_index_steps default_config (calm_env wide_symbols)
           (dataset_only wide_rows) wide_rows (map wide_chunk (seq 0 11))
           (_, _)).
  - apply lookup_singleton_eq.
  - exact wide_chunks.
  - exact (wide_run_batches (clean_start (dataset_only wide_rows))).
Qed.

(** The merge of the two shards, whatever the source file holds. *)
Lemma wide_merge_observed (rows : list (PriceRow float)) :
  build_observation
    (Some (merge_metadata
             (<[INDEX_FILE :=
                  FIndex {| ix_d := 30; ix_ntotal := 2;
                            ix_xb := falling_shape ++ rising_shape |}]>
                (<[part_filename 10 :=
                     FMeta [ {| m_symbol := "S5000"; m_date := 29;
                                m_future_return := simple_return 35%float 30%float |} ]]>
                   (<[part_filename 2 :=
                        FMeta [ {| m_symbol := "S1000"; m_date := 29;
                                   m_future_return := simple_return 1%float 6%float |} ]]>
                      (clean_start (dataset_only rows)))))))
  = Some (2, Some falling_shape, ["S5000"; "S1000"]).
Proof. vm_compute. reflexivity. Qed.

Lemma wide_build_observed :
  build_observation
    (build_index default_config (calm_env wide_symbols) (dataset_only wide_rows))
  = Some (2, Some falling_shape, ["S5000"; "S1000"]).
Proof. rewrite wide_build. apply wide_merge_observed. Qed.

Lemma wide_batch_observed :
  (λ acc : BatchAcc, (X_batch_of acc, col_symbol acc))
    <$> collect_batch default_config wide_rows (take 500 (drop 1000 wide_symbols))
  = Some ([falling_shape], ["S1000"]).
Proof.
  rewrite wide_chunk_2. pose proof wide_batch_2 as H2.
  destruct (collect_batch default_config wide_rows (wide_chunk 2)) as [acc|];
    [|discriminate H2].
  injection H2 as _ HX _ Hs. simpl. by rewrite HX, Hs.
Qed.

Lemma wide_third_chunk :
  chunks (BATCH_SIZE default_config) wide_symbols ≫= (λ symbol_chunks, symbol_chunks !! 2)
  = Some (take 500 (drop 1000 wide_symbols)).
Proof. rewrite wide_chunks, wide_chunk_2. reflexivity. Qed.

(** C1, at a failing input: 5001 symbols with the constants of the script,
    eleven batches, of which batch 2 and batch 10 produce one window each.
    The shards are read back in the order of their names, in which
    [part_10] precedes [part_2]: the counts agree, but row 0 of the index
    holds the vector of [S1000], appended by batch 2, while row 0 of the
    metadata is the row of [S5000], written by batch 10. *)
Lemma shard_order_misaligns_rows :
  ∃ fs' index meta acc row,
    build_index default_config (calm_env wide_symbols) (dataset_only wide_rows) = Some fs'
    ∧ fs' !! INDEX_FILE = Some (FIndex index)
    ∧ fs' !! META_FILE = Some (FMeta meta)
    ∧ ix_ntotal index = 2 ∧ length meta = 2
    ∧ chunks (BATCH_SIZE default_config) wide_symbols
        ≫= (λ symbol_chunks, symbol_chunks !! 2)
      = Some (take 500 (drop 1000 wide_symbols))
    ∧ collect_batch default_config wide_rows (take 500 (drop 1000 wide_symbols)) = Some acc
    ∧ X_batch_of acc = [row]
    ∧ col_symbol acc = ["S1000"]
    ∧ index_reconstruct index 0 = Some row
    ∧ map m_symbol meta = ["S5000"; "S1000"].
Proof.
  pose proof wide_build_observed as Hb. pose proof wide_batch_observed as Hc.
  unfold build_observation in Hb.
  destruct (build_index default_config (calm_env wide_symbols) (dataset_only wide_rows))
    as [fs'|]; [|discriminate Hb].
  simpl in Hb.
  destruct (fs' !! INDEX_FILE) as [[|index|]|] eqn:Hi; try discriminate Hb.
  destruct (fs' !! META_FILE) as [[| |meta]|] eqn:Hmeta; try discriminate Hb.
  destruct (collect_batch default_config wide_rows (take 500 (drop 1000 wide_symbols)))
    as [acc|]; [|discriminate Hc].
  injection Hb as Hn Hr Hm. injection Hc as HX Hs.
  exists fs', index, meta, acc, falling_shape.
  split; [done|]. split; [done|]. split; [done|]. split; [done|].
  split; [by rewrite <- (length_map m_symbol), Hm|].
  split; [apply wide_third_chunk|]. done.
Qed.

(** C2, counterexample: on the same source, two listings of the symbols give
    different artifacts. *)
Lemma build_order_dependent :
  ∃ out1 out2,
    build_run single_config (λ _, false) (λ _, false) (dataset_only two_symbol_rows) out1
    ∧ build_run single_config (λ _, false) (λ _, false) (dataset_only two_symbol_rows) out2
    ∧ out1 ≠ out2.
Proof.
  assert (∀ symbols rows, symbols ≡ₚ ["A"; "B"] →
            dataset_only two_symbol_rows !! DATASET_FILE = Some (FDataset rows) →
            unique_symbols rows symbols) as Huniq.
  { intros symbols rows Hp Hrows. vm_compute in Hrows. injection Hrows as <-.
    split.
    - rewrite Hp. apply NoDup_cons. split; [|apply NoDup_singleton].
      rewrite list_elem_of_singleton. by intros [=].
    - intros s. rewrite Hp. simpl. rewrite !elem_of_cons, !elem_of_nil. tauto. }
  exists (build_index single_config (calm_env ["A"; "B"]) (dataset_only two_symbol_rows)),
         (build_index single_config (calm_env ["B"; "A"]) (dataset_only two_symbol_rows)).
  split; [|split].
  - exists ["A"; "B"]. split; [|done]. intros rows. by apply Huniq.
  - exists ["B"; "A"]. split; [|done]. intros rows. apply Huniq. apply Permutation_swap.
  - intros Heq.
    apply (f_equal (λ o : option (gmap string (File float)),
                      match o ≫= (λ fs, fs !! META_FILE) with
                      | Some (FMeta m) => map m_symbol m
                      | _ => []
                      end)) in Heq.
    vm_compute in Heq. discriminate Heq.
Qed.



(** A constant window of ordinary prices gives the all-zero vector. *)
Lemma constant_window_zero :
  map f_astype32 (shape_vector (replicate 30 100%float)) = replicate 30 0%float.
Proof. vm_compute; reflexivity. Qed.


(** C9, counterexample: without the artifacts the call returns [None]; it
    raises no exception. *)
Lemma missing_index_returns_none :
  call_result (search_pattern (F := float) default_config ∅ "BTCUSDC") = ReturnsNone
  ∧ ¬ ∃ e, call_result (search_pattern (F := float) default_config ∅ "BTCUSDC") = Raises e.
Proof. split; [reflexivity|]. intros [e He]. vm_compute in He. discriminate He. Qed.

Lemma window_extraction_count_witness :
  ∃ o, process_symbol default_config (replicate 35 1%float) (replicate 35 0%Z) = Some o
     ∧ length (sym_vectors o) = 1.
Proof.
  destruct (window_extraction_count default_config (replicate 35 1%float)
              (replicate 35 0%Z)) as (o & Ho & _ & _ & _ & H1 & _);
    [simpl; lia|simpl; lia|].
  exists o. split; [exact Ho|]. apply H1. reflexivity.
Defined.

Lemma forward_outcome_simple_return_witness :
  ∃ o, process_symbol small_config [1; 2; 4; 2; 3]%float [0; 1; 2; 3; 4]%Z = Some o
     ∧ sym_returns o !! 1 = Some (simple_return 2 4)%float
     ∧ sym_dates o !! 1 = Some 2%Z.
Proof.
  pose (o := default SymSkip
               (process_symbol small_config [1; 2; 4; 2; 3]%float [0; 1; 2; 3; 4]%Z)).
  assert (process_symbol small_config [1; 2; 4; 2; 3]%float [0; 1; 2; 3; 4]%Z = Some o)
    as Ho by (vm_compute; reflexivity).
  destruct (forward_outcome_simple_return small_config [1; 2; 4; 2; 3]%float
              [0; 1; 2; 3; 4]%Z o) as [Hw _];
    [simpl; lia|simpl; lia|reflexivity|exact Ho|].
  destruct (Hw 1) as (cur & fut & date & Hc & Hf & Hd & Hr & Hdt);
    [vm_compute; lia|].
  exists o. split; [exact Ho|].
  injection Hc as <-. injection Hf as <-. injection Hd as <-. by split.
Defined.



Lemma reconstruct_round_trip_witness :
  ∃ fs' index,
    build_index single_config (calm_env ["A"; "B"]) (dataset_only two_symbol_rows) = Some fs'
    ∧ fs' !! INDEX_FILE = Some (FIndex index)
    ∧ index_reconstruct index 1 = Some (map f_astype32 (shape_vector [4; 2]%float)).
Proof.
  pose (env := calm_env ["A"; "B"]).
  pose (fs := dataset_only two_symbol_rows).
  pose (fs' := default ∅ (build_index single_config env fs)).
  pose (st := default (index_new 0, ∅)
                (run_batches single_config env two_symbol_rows [["A"]]
                   (index_new (WINDOW_SIZE single_config), clean_start fs))).
  pose (acc := default batch_empty (collect_batch single_config two_symbol_rows ["B"])).
  destruct (reconstruct_round_trip single_config env fs fs' two_symbol_rows
              [["A"]; ["B"]] 1 ["B"] st acc 0
              (map f_astype32 (shape_vector [4; 2]%float)))
    as (index & Hi & Hr); try (vm_compute; reflexivity).
  { vm_compute. discriminate. }
  exists fs', index. split; [vm_compute; reflexivity|]. split; [exact Hi|].
  exact Hr.
Defined.


Lemma build_deterministic_witness :
  build_index small_config (calm_env ["A"; "B"]) (dataset_only two_symbol_rows)
  = build_index small_config (calm_env ["B"; "A"]) (dataset_only two_symbol_rows).
Proof.
  assert (∀ symbols, symbols ≡ₚ ["A"; "B"] → unique_symbols two_symbol_rows symbols)
    as Huniq.
  { intros symbols Hp. split.
    - rewrite Hp. apply NoDup_cons. split; [|apply NoDup_singleton].
      rewrite list_elem_of_singleton. by intros [=].
    - intros s. rewrite Hp. simpl. rewrite !elem_of_cons, !elem_of_nil. tauto. }
  apply (build_deterministic small_config (λ _, false) (λ _, false)
           (dataset_only two_symbol_rows) two_symbol_rows ["A"; "B"] ["B"; "A"]).
  - vm_compute; reflexivity.
  - by apply Huniq.
  - apply Huniq, Permutation_swap.
  - right. simpl. lia.
Defined.

Lemma query_guard_messages_witness :
  search_pattern (F := float) default_config ∅ "BTCUSDC" = PrintNoIndex
  ∧ ∃ fs', build_index small_config (calm_env ["A"])
                       (dataset_only three_window_rows) = Some fs'
         ∧ search_pattern small_config fs' "B" = PrintNoData.
Proof.
  split.
  { apply (query_guard_messages default_config ∅ "BTCUSDC"). by left. }
  pose (fs' := default ∅ (build_index small_config (calm_env ["A"])
                                      (dataset_only three_window_rows))).
  exists fs'. split; [vm_compute; reflexivity|].
  destruct (query_guard_messages small_config fs' "B") as (_ & Hshort & _).
  eapply Hshort; try (vm_compute; reflexivity).
  vm_compute. lia.
Defined.


Section Chunks.
Context {A : Type}.
Implicit Types l : list A.

Lemma chunks_aux_nil (fuel n : nat) : chunks_aux fuel n (@nil A) = [].
Proof. by destruct fuel. Qed.

Lemma chunks_aux_lookup (fuel n : nat) l (i : nat) :
  1 ≤ n → length l ≤ fuel →
  chunks_aux fuel n l !! i
  = if i * n <? length l then Some (take n (drop (i * n) l)) else None.
Proof.
  intros Hn. revert l i. induction fuel as [|fuel IH]; intros l i Hl.
  - destruct l; [|simpl in Hl; lia]. simpl.
    by destruct (Nat.ltb_spec (i * n) 0); [lia|].
  - destruct l as [|x l]; [simpl; by destruct (Nat.ltb_spec (i * n) 0); [lia|]|].
    cbn [chunks_aux]. destruct i as [|i].
    + simpl. done.
    + cbn [lookup list_lookup]. rewrite IH by (rewrite length_drop; simpl in *; lia).
      rewrite length_drop, drop_drop.
      replace (n + i * n) with (S i * n) by lia.
      destruct (Nat.ltb_spec (i * n) (length (x :: l) - n)),
               (Nat.ltb_spec (S i * n) (length (x :: l))); try done; lia.
Qed.

Lemma chunks_aux_concat (fuel n : nat) l :
  1 ≤ n → length l ≤ fuel → concat (chunks_aux fuel n l) = l.
Proof.
  intros Hn. revert l. induction fuel as [|fuel IH]; intros l Hl.
  - by destruct l; [|simpl in Hl; lia].
  - destruct l as [|x l]; [done|]. cbn [chunks_aux concat].
    rewrite IH by (rewrite length_drop; simpl in *; lia).
    apply take_drop.
Qed.

(** X1: [symbol_chunks] of line 43 is the symbol list cut into consecutive
    batches: for a batch size [n >= 1], batch [i] is [l[i*n : i*n + n]] for
    every [i] with [i*n < len(l)] and there is no other batch; so the batches
    are non-empty, hold at most [n] symbols, and put end to end give the list
    back. *)
Theorem chunks_partition (n : nat) l :
  1 ≤ n →
  ∃ cs, chunks n l = Some cs
    ∧ (∀ i, cs !! i
            = if i * n <? length l then Some (take n (drop (i * n) l)) else None)
    ∧ concat cs = l
    ∧ Forall (λ c, 1 ≤ length c ≤ n) cs.
Proof.
  intros Hn. unfold chunks.
  destruct (Nat.eqb_spec n 0); [lia|].
  exists (chunks_aux (length l) n l). split; [done|].
  split; [intros i; by apply chunks_aux_lookup|].
  split; [by apply chunks_aux_concat|].
  apply Forall_forall. intros c [i Hi]%list_elem_of_lookup.
  rewrite chunks_aux_lookup in Hi by done.
  destruct (Nat.ltb_spec (i * n) (length l)); [|done].
  injection Hi as <-. rewrite length_take, length_drop. lia.
Qed.
End Chunks.

Lemma chunks_partition_witness :
  1 ≤ 2
  ∧ ∃ cs, chunks 2 ["A"; "B"; "C"; "D"; "E"] = Some cs
    ∧ (∀ i, cs !! i
            = if i * 2 <? 5 then Some (take 2 (drop (i * 2) ["A"; "B"; "C"; "D"; "E"]))
              else None)
    ∧ concat cs = ["A"; "B"; "C"; "D"; "E"]
    ∧ Forall (λ c, 1 ≤ length c ≤ 2) cs.
Proof. split; [lia|]. apply (chunks_partition 2 ["A"; "B"; "C"; "D"; "E"]). lia. Defined.

Lemma first_occurrences_spec (seen l : list string) (s : string) :
  s ∈ first_occurrences seen l ↔ s ∈ l ∧ s ∉ seen.
Proof.
  revert seen. induction l as [|x l IH]; intros seen; simpl.
  - rewrite !elem_of_nil. tauto.
  - case_bool_decide as Hx.
    + rewrite IH, elem_of_cons. split; [intros [? ?]; by split; [right|]|].
      intros [[->|?] ?]; [done|by split].
    + rewrite elem_of_cons, IH, not_elem_of_cons, elem_of_cons. split.
      * intros [->|[? [? ?]]]; [by split; [left|]|by split; [right|]].
      * intros [[->|?] ?]; [by left|].
        destruct (decide (s = x)) as [->|]; [by left|by right].
Qed.

Lemma first_occurrences_NoDup (seen l : list string) :
  NoDup (first_occurrences seen l).
Proof.
  revert seen. induction l as [|x l IH]; intros seen; simpl; [constructor|].
  case_bool_decide; [apply IH|]. constructor; [|apply IH].
  rewrite first_occurrences_spec. intros [_ Hn]. apply Hn. by left.
Qed.

Lemma first_occurrences_sorted (R : relation string) (seen l : list string) :
  StronglySorted R l → StronglySorted R (first_occurrences seen l).
Proof.
  revert seen. induction l as [|x l IH]; intros seen Hs; simpl; [constructor|].
  apply StronglySorted_inv in Hs as [Hs Hx].
  case_bool_decide; [by apply IH|]. constructor; [by apply IH|].
  apply Forall_forall. intros s [Hs' _]%first_occurrences_spec.
  by eapply Forall_forall in Hx.
Qed.

Lemma StronglySorted_filter {A : Type} (R : relation A) (P : A → Prop)
    `{∀ x, Decision (P x)} (l : list A) :
  StronglySorted R l → StronglySorted R (filter P l).
Proof.
  induction 1 as [|x l Hs IH Hx]; [constructor|].
  rewrite filter_cons. destruct (decide (P x)); [|done].
  constructor; [done|]. apply Forall_forall.
  intros y [_ Hy]%list_elem_of_filter. by eapply Forall_forall in Hx.
Qed.

Lemma StronglySorted_fmap {A B : Type} (R : relation A) (R' : relation B)
    (f : A → B) (l : list A) :
  (∀ a b, a ∈ l → b ∈ l → R a b → R' (f a) (f b)) →
  StronglySorted R l → StronglySorted R' (f <$> l).
Proof.
  intros Hf Hs. induction Hs as [|x l Hs IH Hx]; [constructor|].
  rewrite fmap_cons. constructor.
  - apply IH. intros a b Ha Hb. apply Hf; by right.
  - apply Forall_fmap, Forall_forall. intros y Hy. simpl.
    apply Hf; [by left|by right|]. by eapply Forall_forall in Hx.
Qed.

Section Groups.
Context {F : Type} `{Num F}.

#[local] Instance row_le_total : Total (row_le (F := F)).
Proof.
  intros a b. unfold row_le.
  destruct (decide (p_symbol a = p_symbol b)) as [Heq|Hne].
  - destruct (Z.le_ge_cases (p_ts a) (p_ts b)); [left; by left|].
    right. left. split; [done|lia].
  - destruct (total String.le (p_symbol a) (p_symbol b)); [left|right]; right;
      split; done || congruence.
Qed.

#[local] Instance row_le_trans : Transitive (row_le (F := F)).
Proof.
  intros a b c. unfold row_le.
  intros [[E1 L1]|[N1 L1]] [[E2 L2]|[N2 L2]].
  - left. split; [congruence|lia].
  - right. rewrite E1. by split.
  - right. rewrite <-E2. by split.
  - right. split; [|by etrans].
    intros E. rewrite <-E in L2. apply N1. by apply (anti_symm String.le).
Qed.

Lemma load_batch_sorted (rows : list (PriceRow F)) (batch : list string) :
  StronglySorted row_le (load_batch rows batch).
Proof. apply StronglySorted_merge_sort; apply _. Qed.

Lemma load_batch_Permutation (rows : list (PriceRow F)) (batch : list string) :
  load_batch rows batch ≡ₚ filter (λ r, p_symbol r ∈ batch) rows.
Proof. apply merge_sort_Permutation. Qed.

(** X2: lines 49-64 hand every symbol of the batch that has rows to the
    window extraction exactly once, the symbols in ascending order, each
    with all its rows of the source and these in ascending [ts] order. *)
Theorem batch_groups (rows : list (PriceRow F)) (batch : list string) :
  let groups := partition_by_symbol (load_batch rows batch) in
  NoDup groups.*1
  ∧ StronglySorted String.le groups.*1
  ∧ (∀ s, s ∈ groups.*1 ↔ s ∈ batch ∧ s ∈ map p_symbol rows)
  ∧ (∀ s g, (s, g) ∈ groups →
       g ≡ₚ filter (λ r, p_symbol r = s) rows
       ∧ StronglySorted (λ a b, (p_ts a ≤ p_ts b)%Z) g
       ∧ g ≠ []).
Proof.
  intros groups.
  assert (Hfst : groups.*1 = first_occurrences [] (map p_symbol (load_batch rows batch))).
  { unfold groups, partition_by_symbol. rewrite <-list_fmap_compose.
    by rewrite list_fmap_id. }
  assert (Hsym : ∀ s, s ∈ map p_symbol (load_batch rows batch)
                      ↔ s ∈ batch ∧ s ∈ map p_symbol rows).
  { intros s. rewrite (load_batch_Permutation rows batch).
    rewrite !list_elem_of_fmap. split.
    - intros (r & -> & [Hb Hr]%list_elem_of_filter). split; [done|by exists r].
    - intros (Hb & r & -> & Hr). exists r. split; [done|].
      by apply list_elem_of_filter. }
  split; [rewrite Hfst; apply first_occurrences_NoDup|].
  split.
  { rewrite Hfst. apply first_occurrences_sorted.
    apply (StronglySorted_fmap row_le); [|apply load_batch_sorted].
    intros a b _ _ [[-> _]|[_ ?]]; [reflexivity|done]. }
  split.
  { intros s. rewrite Hfst, first_occurrences_spec, Hsym.
    split; [by intros [? _]|]. intros ?. split; [done|apply not_elem_of_nil]. }
  intros s g Hg. unfold groups, partition_by_symbol in Hg.
  apply list_elem_of_fmap in Hg as (s' & [= <- ->] & Hs').
  apply first_occurrences_spec in Hs' as [Hs' _].
  pose proof Hs' as (Hb & _)%Hsym.
  split; [|split].
  - rewrite (load_batch_Permutation rows batch), list_filter_filter.
    apply reflexive_eq, list_filter_iff. intros r. split; [by intros [? _]|].
    intros ->. by split.
  - rewrite <-(list_fmap_id (filter _ _)).
    apply (StronglySorted_fmap row_le);
      [|apply StronglySorted_filter, load_batch_sorted].
    intros a b [Ea _]%list_elem_of_filter [Eb _]%list_elem_of_filter [[_ ?]|[Hne _]];
      [done|]. simpl in *. congruence.
  - apply list_elem_of_fmap in Hs' as (r & -> & Hr).
    intros Hnil. assert (Hin : r ∈ filter (λ r0, p_symbol r0 = p_symbol r)
                                    (load_batch rows batch))
      by by apply list_elem_of_filter.
    rewrite Hnil in Hin. by apply elem_of_nil in Hin.
Qed.
End Groups.

Lemma fold_opt_total {A B : Type} (P : A → Prop) (f : A → B → option A)
    (a : A) (l : list B) :
  (∀ a x, P a → ∃ a', f a x = Some a' ∧ P a') →
  P a → ∃ b, fold_opt f a l = Some b ∧ P b.
Proof.
  intros Hf. revert a. induction l as [|x l IH]; intros a Ha; simpl; [by exists a|].
  destruct (Hf a x Ha) as (a' & -> & Ha'). simpl. by apply IH.
Qed.

Section Total.
Context {F : Type} `{Num F}.
Variable cfg : Config.
Variable env : Env.

#[local] Abbreviation W := (WINDOW_SIZE cfg).
#[local] Abbreviation Hz := (PREDICT_HORIZON cfg).

Lemma length_shape_vector (raw : list F) : length (shape_vector raw) = length raw.
Proof. unfold shape_vector. by rewrite length_map. Qed.

Lemma process_symbol_regular (closes : list F) (dates : list Z) :
  1 ≤ W → 1 ≤ Hz → length dates = length closes →
  ∃ o, process_symbol cfg closes dates = Some o
    ∧ Forall (λ v, length v = W) (sym_vectors o)
    ∧ match o with
      | SymSkip => True
      | SymRows n vs ds rs => length vs = n ∧ length ds = n ∧ length rs = n
      end.
Proof.
  intros HW HH Hd.
  destruct (decide (length closes < W + Hz)) as [Hs|Hl].
  - exists SymSkip. split; [by apply process_symbol_short|]. by split; [constructor|].
  - eexists. split; [apply process_symbol_rows; lia|].
    split; simpl.
    + apply Forall_forall. intros v (i & -> & Hi%elem_of_seq)%list_elem_of_fmap.
      rewrite length_shape_vector, length_take, length_drop. lia.
    + rewrite length_map, length_seq, length_take, length_drop, length_zip_with,
        !length_take, !length_drop. lia.
Qed.

Lemma batch_empty_regular : batch_regular cfg (batch_empty (F := F)).
Proof. by split; [constructor|]. Qed.

Lemma batch_step_regular (acc : BatchAcc) (g : string * list (PriceRow F)) :
  1 ≤ W → 1 ≤ Hz → batch_regular cfg acc →
  ∃ acc', batch_step cfg acc g = Some acc' ∧ batch_regular cfg acc'.
Proof.
  intros HW HH (Hv & Hs & Hd & Hr). unfold batch_step.
  destruct (process_symbol_regular (map p_close g.2) (map p_ts g.2) HW HH)
    as (o & -> & Hov & Ho); [by rewrite !length_map|].
  destruct o as [|n vs ds rs]; simpl; [by exists acc|].
  eexists. split; [done|]. destruct Ho as (Hn1 & Hn2 & Hn3). simpl in Hov.
  unfold batch_regular. simpl. rewrite concat_app. simpl. rewrite app_nil_r.
  rewrite Forall_app, !length_app, length_replicate. repeat split; try done; lia.
Qed.

Lemma collect_batch_regular (rows : list (PriceRow F)) (symbols_batch : list string) :
  1 ≤ W → 1 ≤ Hz →
  ∃ acc, collect_batch cfg rows symbols_batch = Some acc ∧ batch_regular cfg acc.
Proof.
  intros HW HH. unfold collect_batch.
  apply (fold_opt_total (batch_regular cfg)); [|apply batch_empty_regular].
  intros acc g Hacc. by apply batch_step_regular.
Qed.

Lemma mk_dataframe_regular (acc : BatchAcc) :
  batch_regular cfg acc →
  ∃ df, mk_dataframe acc = Some df ∧ length df = length (X_batch_of acc).
Proof.
  intros (Hv & Hs & Hd & Hr). unfold mk_dataframe.
  rewrite Hs, Hd, Hr, Nat.eqb_refl. simpl. eexists. split; [done|].
  unfold X_batch_of. rewrite length_zip_with, length_zip, length_map. lia.
Qed.

Lemma index_add_regular (idx : IndexFlatL2 F) (acc : BatchAcc) :
  batch_regular cfg acc → ix_d idx = W →
  index_add idx (X_batch_of acc)
  = Some {| ix_d := ix_d idx;
            ix_ntotal := ix_ntotal idx + length (X_batch_of acc);
            ix_xb := ix_xb idx ++ concat (X_batch_of acc) |}.
Proof.
  intros (Hv & _) Hd. unfold index_add.
  assert (forallb (λ r, length r =? ix_d idx) (X_batch_of acc) = true) as ->; [|done].
  apply forallb_forall. intros r Hr%list_elem_of_In.
  unfold X_batch_of in Hr. apply list_elem_of_fmap in Hr as (v & -> & Hin).
  rewrite length_map, Hd. apply Nat.eqb_eq. by eapply Forall_forall in Hv.
Qed.

Lemma process_batch_total (rows : list (PriceRow F))
    (st : IndexFlatL2 F * gmap string (File F)) (chunk : nat * list string) :
  1 ≤ W → 1 ≤ Hz → ix_d st.1 = W →
  ∃ st', process_batch cfg env rows st chunk = Some st' ∧ ix_d st'.1 = W.
Proof.
  intros HW HH Hd. unfold process_batch.
  destruct (load_fails env chunk.1); [by exists st|].
  destruct (collect_batch_regular rows chunk.2 HW HH) as (acc & -> & Hacc). simpl.
  destruct (batch_vectors acc) eqn:Hbv; [by exists st|].
  rewrite (index_add_regular _ _ Hacc Hd). simpl.
  destruct (if meta_write_fails env chunk.1 then None else mk_dataframe acc);
    by eexists.
Qed.

(** X3: with a window, a horizon and a batch size of at least 1, no step of
    [build_index] raises, whatever the files and the source rows: the length
    guard of line 68 keeps [sliding_window_view] from its [ValueError], and
    every batch hands [index.add] vectors of [WINDOW_SIZE] numbers. *)
Theorem build_never_raises (fs : gmap string (File F)) :
  1 ≤ W → 1 ≤ Hz → 1 ≤ BATCH_SIZE cfg →
  ∃ fs', build_index cfg env fs = Some fs'.
Proof.
  intros HW HH HB. unfold build_index.
  destruct (fs !! DATASET_FILE) as [[rows| |]|]; try by eexists.
  unfold chunks. destruct (Nat.eqb_spec (BATCH_SIZE cfg) 0); [lia|]. simpl.
  destruct (fold_opt_total (λ st, ix_d st.1 = W) (process_batch cfg env rows)
              (index_new W, clean_start fs)
              (imap pair (chunks_aux (length (all_symbols env)) (BATCH_SIZE cfg)
                                     (all_symbols env))))
    as (st & Hst & _); [|done|].
  - intros st chunk Hd. by apply process_batch_total.
  - unfold run_batches. rewrite Hst. simpl. by eexists.
Qed.
End Total.

Lemma build_never_raises_witness :
  1 ≤ WINDOW_SIZE default_config ∧ 1 ≤ PREDICT_HORIZON default_config
  ∧ 1 ≤ BATCH_SIZE default_config
  ∧ ∃ fs', build_index default_config (calm_env ["A"; "B"])
                       (dataset_only two_symbol_rows) = Some fs'.
Proof.
  repeat (split; [simpl; lia|]).
  apply (build_never_raises default_config (calm_env ["A"; "B"])
           (dataset_only two_symbol_rows)); simpl; lia.
Defined.

Lemma string_app_length (s1 s2 : string) :
  String.length (s1 +:+ s2) = String.length s1 + String.length s2.
Proof. induction s1 as [|a s1 IH]; simpl; [done|]. by rewrite IH. Qed.

Lemma string_app_inj_r (s1 s2 t : string) : s1 +:+ t = s2 +:+ t → s1 = s2.
Proof.
  revert s2. induction s1 as [|a s1 IH]; intros [|b s2] Heq; simpl in *.
  - done.
  - apply (f_equal String.length) in Heq. simpl in Heq.
    rewrite !string_app_length in Heq. simpl in Heq. lia.
  - apply (f_equal String.length) in Heq. simpl in Heq.
    rewrite !string_app_length in Heq. simpl in Heq. lia.
  - injection Heq as -> Heq. f_equal. by apply IH.
Qed.

Lemma substring_all (s : string) : String.substring 0 (String.length s) s = s.
Proof. induction s as [|a s IH]; simpl; [done|]. by rewrite IH. Qed.

Lemma substring_app_r (s1 s2 : string) :
  String.substring (String.length s1) (String.length s2) (s1 +:+ s2) = s2.
Proof. induction s1 as [|a s1 IH]; simpl; [apply substring_all|done]. Qed.

Lemma string_app_assoc (s1 s2 s3 : string) : (s1 +:+ s2) +:+ s3 = s1 +:+ (s2 +:+ s3).
Proof.
  induction s1 as [|a s1 IH]; [done|].
  change (String a ((s1 +:+ s2) +:+ s3) = String a (s1 +:+ (s2 +:+ s3))).
  by f_equal.
Qed.

Lemma part_filename_inj (i j : nat) : part_filename i = part_filename j → i = j.
Proof.
  unfold part_filename. intros Heq%(inj (String.app PART_PREFIX)).
  apply string_app_inj_r in Heq. by apply (inj pretty).
Qed.

Lemma string_prefix_app (s t : string) : String.prefix s (s +:+ t) = true.
Proof.
  induction s as [|a s IH]; [by destruct t|].
  change (String.prefix (String a s) (String a (s +:+ t)) = true). simpl.
  by destruct (Ascii.ascii_dec a a).
Qed.

Lemma is_part_part_filename (k : nat) : is_part (part_filename k) = true.
Proof.
  unfold is_part, part_filename.
  rewrite string_prefix_app.
  rewrite <-string_app_assoc, string_app_length.
  replace (String.length (PART_PREFIX +:+ pretty k) + String.length PART_SUFFIX
           - String.length PART_SUFFIX)
    with (String.length (PART_PREFIX +:+ pretty k)) by lia.
  rewrite substring_app_r, String.eqb_refl, string_app_length.
  rewrite andb_true_r, andb_true_l. apply Nat.leb_le. lia.
Qed.

Lemma is_part_meta : is_part META_FILE = false.
Proof. reflexivity. Qed.

Lemma is_part_index : is_part INDEX_FILE = false.
Proof. reflexivity. Qed.

Lemma is_part_dataset : is_part DATASET_FILE = false.
Proof. reflexivity. Qed.

Section LedgerFacts.
Context {F : Type} `{Num F}.
Variable cfg : Config.
Variable env : Env.
Variable rows : list (PriceRow F).

#[local] Abbreviation W := (WINDOW_SIZE cfg).
#[local] Abbreviation Hz := (PREDICT_HORIZON cfg).

Lemma batch_ledger_elem (l : list (nat * list string)) (e : nat * BatchAcc) :
  e ∈ batch_ledger cfg env rows l ↔
  ∃ chunk, chunk ∈ l ∧ chunk.1 = e.1 ∧ load_fails env e.1 = false
         ∧ collect_batch cfg rows chunk.2 = Some e.2 ∧ batch_vectors e.2 ≠ [].
Proof.
  unfold batch_ledger. rewrite list_elem_of_omap. split.
  - intros (chunk & Hin & Hf). exists chunk. split; [done|].
    destruct (load_fails env chunk.1) eqn:Hlf; [done|].
    destruct (collect_batch cfg rows chunk.2) as [acc|]; [|done].
    destruct (batch_vectors acc) eqn:Hbv; [done|].
    injection Hf as <-. simpl. rewrite Hbv. done.
  - intros (chunk & Hin & Hk & Hlf & Hc & Hbv). exists chunk. split; [done|].
    rewrite Hk, Hlf, Hc. destruct (batch_vectors e.2); [done|].
    destruct e. simpl in *. by subst.
Qed.

Lemma batch_ledger_regular (l : list (nat * list string)) (e : nat * BatchAcc) :
  1 ≤ W → 1 ≤ Hz → e ∈ batch_ledger cfg env rows l → batch_regular cfg e.2.
Proof.
  intros HW HH (chunk & _ & _ & _ & Hc & _)%batch_ledger_elem.
  destruct (collect_batch_regular cfg rows chunk.2 HW HH) as (acc & Hacc & Hreg).
  congruence.
Qed.

Lemma batch_ledger_keys (l : list (nat * list string)) (e : nat * BatchAcc) :
  e ∈ batch_ledger cfg env rows l → e.1 ∈ l.*1.
Proof.
  intros (chunk & Hin & <- & _)%batch_ledger_elem. by apply list_elem_of_fmap_2.
Qed.

Lemma batch_ledger_skip (chunk : nat * list string) (l : list (nat * list string)) :
  load_fails env chunk.1 = true
  ∨ (∃ acc, collect_batch cfg rows chunk.2 = Some acc ∧ batch_vectors acc = []) →
  batch_ledger cfg env rows (chunk :: l) = batch_ledger cfg env rows l.
Proof.
  unfold batch_ledger. cbn [omap list_omap].
  intros [->|(acc & -> & ->)]; [done|]. by destruct (load_fails env chunk.1).
Qed.

Lemma batch_ledger_add (chunk : nat * list string) (l : list (nat * list string))
    (acc : BatchAcc) :
  load_fails env chunk.1 = false → collect_batch cfg rows chunk.2 = Some acc →
  batch_vectors acc ≠ [] →
  batch_ledger cfg env rows (chunk :: l) = (chunk.1, acc) :: batch_ledger cfg env rows l.
Proof.
  unfold batch_ledger. cbn [omap list_omap]. intros -> -> Hbv.
  by destruct (batch_vectors acc).
Qed.

(** The index and the files after the loop in terms of the batches that were
    added. *)
Lemma run_ledger (l : list (nat * list string))
    (st0 st : IndexFlatL2 F * gmap string (File F)) :
  1 ≤ W → 1 ≤ Hz → NoDup l.*1 → ix_d st0.1 = W →
  fold_opt (process_batch cfg env rows) st0 l = Some st →
  let L := batch_ledger cfg env rows l in
  ix_d st.1 = W
  ∧ ix_ntotal st.1 = ix_ntotal st0.1 + length (concat (X_batch_of <$> L.*2))
  ∧ ix_xb st.1 = ix_xb st0.1 ++ concat (concat (X_batch_of <$> L.*2))
  ∧ (∀ name, (∀ e, e ∈ L → name ≠ part_filename e.1) → st.2 !! name = st0.2 !! name)
  ∧ (∀ e, e ∈ L →
       st.2 !! part_filename e.1
       = match shard_of env e with
         | Some df => Some (FMeta df)
         | None => st0.2 !! part_filename e.1
         end).
Proof.
  intros HW HH. revert st0. induction l as [|chunk l IH]; intros st0 Hnd Hd Hrun.
  - simpl in Hrun. injection Hrun as <-. simpl.
    rewrite app_nil_r, Nat.add_0_r. repeat split; try done.
    intros e He. by apply elem_of_nil in He.
  - simpl in Hrun. apply NoDup_cons in Hnd as [Hk Hnd].
    destruct (process_batch cfg env rows st0 chunk) as [st1|] eqn:Hstep; [|done].
    simpl in Hrun. unfold process_batch in Hstep.
    destruct (load_fails env chunk.1) eqn:Hlf.
    { injection Hstep as <-. rewrite batch_ledger_skip by by left. by apply IH. }
    destruct (collect_batch_regular cfg rows chunk.2 HW HH) as (acc & Hacc & Hreg).
    rewrite Hacc in Hstep. simpl in Hstep.
    destruct (batch_vectors acc) eqn:Hbv.
    { injection Hstep as <-. rewrite batch_ledger_skip by (right; by exists acc).
      by apply IH. }
    rewrite (batch_ledger_add _ _ acc) by (by rewrite ?Hbv).
    rewrite (index_add_regular cfg _ _ Hreg Hd) in Hstep. simpl in Hstep.
    fold (shard_of env (chunk.1, acc)) in Hstep.
    set (e0 := (chunk.1, acc)) in *.
    assert (Hfresh : ∀ e, e ∈ batch_ledger cfg env rows l →
                          part_filename chunk.1 ≠ part_filename e.1).
    { intros e He%batch_ledger_keys Heq%part_filename_inj. apply Hk. by rewrite Heq. }
    assert (∃ fs1, st1 = ({| ix_d := ix_d st0.1;
                             ix_ntotal := ix_ntotal st0.1 + length (X_batch_of acc);
                             ix_xb := ix_xb st0.1 ++ concat (X_batch_of acc) |}, fs1)
                   ∧ fs1 = match shard_of env e0 with
                           | Some df => <[part_filename chunk.1 := FMeta df]> st0.2
                           | None => st0.2
                           end) as (fs1 & -> & Hfs1).
    { unfold shard_of, e0. simpl.
      destruct (if meta_write_fails env chunk.1 then None else mk_dataframe acc);
        injection Hstep as <-; by eexists. }
    apply IH in Hrun as (I1 & I2 & I3 & I4 & I5); [|done|exact Hd].
    cbn [fst snd ix_d ix_ntotal ix_xb] in I2, I3, I4, I5.
    split; [done|]. rewrite !fmap_cons. change (e0.2) with acc. cbn [concat].
    rewrite length_app, concat_app.
    split; [rewrite I2; lia|]. split; [by rewrite I3, <-app_assoc|].
    split.
    + intros name Hname. rewrite I4 by (intros e He; apply Hname; by right).
      rewrite Hfs1. destruct (shard_of env e0); [|done].
      apply lookup_insert_ne. intros Heq. by apply (Hname e0); [left|].
    + intros e [->|He]%elem_of_cons.
      * change (e0.1) with chunk.1. rewrite I4 by done. rewrite Hfs1.
        destruct (shard_of env e0); [|done]. apply lookup_insert_eq.
      * rewrite I5 by done. destruct (shard_of env e); [done|].
        rewrite Hfs1. destruct (shard_of env e0); [|done].
        apply lookup_insert_ne. by apply Hfresh.
Qed.
End LedgerFacts.

Lemma mapM_default {A B : Type} (f : A → option B) (d : B) (l : list A) :
  Forall (λ x, is_Some (f x)) l → mapM f l = Some ((λ x, default d (f x)) <$> l).
Proof.
  intros Hl. apply mapM_Some. induction Hl as [|x l [y Hy] _ IH]; simpl; [constructor|].
  constructor; [by rewrite Hy|done].
Qed.

Lemma Forall_sublist {A : Type} (P : A → Prop) (l1 l2 : list A) :
  l1 `sublist_of` l2 → Forall P l2 → Forall P l1.
Proof.
  induction 1 as [|x l1 l2 _ IH|x l1 l2 _ IH]; intros Hl; [done| |].
  - apply Forall_cons in Hl as [? ?]. constructor; auto.
  - apply Forall_cons in Hl as [? ?]. auto.
Qed.

Lemma StronglySorted_sublist {A : Type} (R : relation A) (l1 l2 : list A) :
  l1 `sublist_of` l2 → StronglySorted R l2 → StronglySorted R l1.
Proof.
  induction 1 as [|x l1 l2 Hs IH|x l1 l2 _ IH]; intros Hl; [done| |].
  - apply StronglySorted_inv in Hl as [? ?]. constructor; [auto|].
    by eapply Forall_sublist.
  - apply StronglySorted_inv in Hl as [? ?]. auto.
Qed.

Section MergeFacts.
Context {F : Type} `{Num F}.

Lemma glob_parts_NoDup (fs : gmap string (File F)) : NoDup (glob_parts fs).
Proof.
  unfold glob_parts. rewrite merge_sort_Permutation.
  apply NoDup_filter, NoDup_fst_map_to_list.
Qed.

Lemma glob_parts_Sorted (fs : gmap string (File F)) : Sorted String.le (glob_parts fs).
Proof. apply Sorted_merge_sort. apply _. Qed.

(** The files after step 5 when every shard is readable. *)
Lemma merge_metadata_described (fs : gmap string (File F)) :
  (∀ name f, is_part name = true → fs !! name = Some f → ∃ df, f = FMeta df) →
  (∀ name, is_part name = true → merge_metadata fs !! name = None)
  ∧ merge_metadata fs !! META_FILE
    = match glob_parts fs with
      | [] => fs !! META_FILE
      | _ :: _ =>
          Some (FMeta (concat ((λ name, default [] (read_meta fs name))
                                 <$> glob_parts fs)))
      end.
Proof.
  intros Hparts. unfold merge_metadata.
  destruct (glob_parts fs) as [|n0 ns] eqn:Hg.
  - split; [|done]. intros name Hp.
    destruct (fs !! name) as [f|] eqn:Hf; [|done].
    assert (name ∈ glob_parts fs) as Hin by (apply glob_parts_elem; eauto).
    rewrite Hg in Hin. by apply elem_of_nil in Hin.
  - rewrite (mapM_default _ []).
    2:{ apply Forall_forall. intros name Hin. rewrite <-Hg in Hin.
        apply glob_parts_elem in Hin as [Hp [f Hf]].
        destruct (Hparts name f Hp Hf) as [df ->]. unfold read_meta. by rewrite Hf. }
    split.
    + intros name Hp. destruct (decide (name ∈ n0 :: ns)) as [Hin|Hnin].
      * by apply lookup_foldr_delete.
      * rewrite lookup_foldr_delete_not_elem_of by done.
        rewrite lookup_insert_ne by (intros <-; by rewrite is_part_meta in Hp).
        destruct (fs !! name) as [f|] eqn:Hf; [|done].
        exfalso. apply Hnin. rewrite <-Hg. apply glob_parts_elem. eauto.
    + rewrite lookup_foldr_delete_not_elem_of; [apply lookup_insert_eq|].
      rewrite <-Hg. intros [Hp _]%glob_parts_elem. by rewrite is_part_meta in Hp.
Qed.

Lemma clean_start_lookup (fs : gmap string (File F)) (name : string) :
  clean_start fs !! name
  = if is_part name then None else if decide (name = META_FILE) then None else fs !! name.
Proof.
  unfold clean_start. destruct (is_part name) eqn:Hp.
  - apply map_lookup_filter_None. right. intros x _. simpl. congruence.
  - destruct (decide (name = META_FILE)) as [->|Hm].
    + apply map_lookup_filter_None. left. apply lookup_delete_eq.
    + destruct (fs !! name) as [f|] eqn:Hf.
      * apply map_lookup_filter_Some. split; [|done]. by rewrite lookup_delete_ne.
      * apply map_lookup_filter_None. left. by rewrite lookup_delete_ne.
Qed.
End MergeFacts.

#[local] Instance part_filename_Inj : Inj (=) (=) part_filename.
Proof. intros i j. apply part_filename_inj. Qed.

Section BuildFacts.
Context {F : Type} `{Num F}.
Variable cfg : Config.
Variable env : Env.

#[local] Abbreviation W := (WINDOW_SIZE cfg).
#[local] Abbreviation Hz := (PREDICT_HORIZON cfg).

Lemma batch_ledger_sublist (rows : list (PriceRow F)) (l : list (nat * list string)) :
  (batch_ledger cfg env rows l).*1 `sublist_of` l.*1.
Proof.
  induction l as [|chunk l IH]; [done|].
  destruct (load_fails env chunk.1) eqn:Hlf.
  { rewrite batch_ledger_skip by by left. by apply sublist_cons. }
  destruct (collect_batch cfg rows chunk.2) as [acc|] eqn:Hacc.
  - destruct (batch_vectors acc) eqn:Hbv.
    + rewrite batch_ledger_skip by (right; by exists acc). by apply sublist_cons.
    + rewrite (batch_ledger_add _ _ _ _ _ acc) by (by rewrite ?Hbv).
      rewrite !fmap_cons. by apply sublist_skip.
  - unfold batch_ledger. cbn [omap list_omap]. rewrite Hlf, Hacc.
    by apply sublist_cons.
Qed.

(** The written shards of a build: the batches of the ledger whose
    metadata reached the disk. *)
#[local] Abbreviation written L := (filter (λ e, is_Some (shard_of env e)) L).

Lemma build_described (fs fs' : gmap string (File F)) (rows : list (PriceRow F)) :
  1 ≤ W → 1 ≤ Hz →
  fs !! DATASET_FILE = Some (FDataset rows) →
  build_index cfg env fs = Some fs' →
  ∃ symbol_chunks st,
    chunks (BATCH_SIZE cfg) (all_symbols env) = Some symbol_chunks
    ∧ fs' = merge_metadata (<[INDEX_FILE := FIndex st.1]> st.2)
    ∧ let L := batch_ledger cfg env rows (imap pair symbol_chunks) in
      let fsI := <[INDEX_FILE := FIndex st.1]> st.2 in
      ix_d st.1 = W
      ∧ ix_ntotal st.1 = length (concat (X_batch_of <$> L.*2))
      ∧ ix_xb st.1 = concat (concat (X_batch_of <$> L.*2))
      ∧ L.*1 `sublist_of` seq 0 (length symbol_chunks)
      ∧ (∀ e, e ∈ L → read_meta fsI (part_filename e.1) = shard_of env e)
      ∧ glob_parts fsI ≡ₚ (λ e, part_filename e.1) <$> written L
      ∧ (∀ name f, is_part name = true → fsI !! name = Some f → ∃ df, f = FMeta df)
      ∧ (∀ name, is_part name = false → name ≠ INDEX_FILE → name ≠ META_FILE →
           fsI !! name = fs !! name)
      ∧ fsI !! META_FILE = None.
Proof.
  intros HW HH Hd Hb. unfold build_index in Hb. rewrite Hd in Hb.
  destruct (chunks (BATCH_SIZE cfg) (all_symbols env)) as [symbol_chunks|] eqn:Hc;
    [|done].
  simpl in Hb.
  destruct (run_batches cfg env rows symbol_chunks (index_new W, clean_start fs))
    as [st|] eqn:Hrun; [|done].
  simpl in Hb. injection Hb as <-.
  exists symbol_chunks, st. split; [done|]. split; [done|].
  assert (Hkeys : (imap pair symbol_chunks).*1 = seq 0 (length symbol_chunks))
    by apply imap_pair_fst.
  destruct (run_ledger cfg env rows (imap pair symbol_chunks)
              (index_new W, clean_start fs) st HW HH)
    as (I1 & I2 & I3 & I4 & I5); [rewrite Hkeys; apply NoDup_seq|done|exact Hrun|].
  cbn [fst snd index_new ix_ntotal ix_xb] in I2, I3, I4, I5.
  set (L := batch_ledger cfg env rows (imap pair symbol_chunks)) in *.
  assert (HLsub : L.*1 `sublist_of` seq 0 (length symbol_chunks)).
  { rewrite <-Hkeys. apply batch_ledger_sublist. }
  assert (HLnd : NoDup L.*1).
  { apply (sublist_NoDup _ _ (NoDup_seq _ _) HLsub). }
  assert (Hpart : ∀ name, is_part name = true →
            (<[INDEX_FILE := FIndex st.1]> st.2) !! name = st.2 !! name).
  { intros name Hp. apply lookup_insert_ne. intros <-. by rewrite is_part_index in Hp. }
  assert (Hshard : ∀ e, e ∈ L →
            st.2 !! part_filename e.1 = FMeta <$> shard_of env e).
  { intros e He. rewrite I5 by done. destruct (shard_of env e); [done|].
    by rewrite clean_start_lookup, is_part_part_filename. }
  assert (Hother : ∀ name, is_part name = true →
            (∀ e, e ∈ L → name ≠ part_filename e.1) → st.2 !! name = None).
  { intros name Hp Hne. rewrite I4 by done. by rewrite clean_start_lookup, Hp. }
  assert (Hcases : ∀ name, is_part name = true →
            (∃ e, e ∈ L ∧ name = part_filename e.1) ∨ st.2 !! name = None).
  { intros name Hp.
    destruct (decide (Exists (λ e : nat * BatchAcc, name = part_filename e.1) L))
      as [(e & He & ->)%Exists_exists|Hne]; [left; eauto|].
    right. apply Hother; [done|]. intros e He ->. apply Hne, Exists_exists. eauto. }
  intros L0 fsI. subst L0.
  split; [done|]. split; [by rewrite I2|]. split; [by rewrite I3|]. split; [done|].
  split; [|split; [|split; [|split]]].
  - intros e He. unfold read_meta, fsI.
    rewrite Hpart by apply is_part_part_filename. rewrite Hshard by done.
    by destruct (shard_of env e).
  - apply NoDup_Permutation.
    + apply glob_parts_NoDup.
    + replace ((λ e : nat * BatchAcc, part_filename e.1) <$> written L)
        with (part_filename <$> (written L).*1)
        by (by rewrite <-list_fmap_compose).
      apply (NoDup_fmap_2 part_filename).
      refine (sublist_NoDup _ _ HLnd _). apply fmap_sublist, sublist_filter.
    + intros name. rewrite glob_parts_elem, list_elem_of_fmap. split.
      * intros [Hp [f Hf]]. unfold fsI in Hf. rewrite Hpart in Hf by done.
        destruct (Hcases name Hp) as [(e & He & ->)|Hn]; [|congruence].
        exists e. split; [done|]. apply list_elem_of_filter. split; [|done].
        rewrite Hshard in Hf by done. by destruct (shard_of env e).
      * intros (e & -> & [[df Hdf] He]%list_elem_of_filter).
        split; [apply is_part_part_filename|]. unfold fsI.
        rewrite Hpart by apply is_part_part_filename.
        rewrite Hshard, Hdf by done. by eexists.
  - intros name f Hp Hf. unfold fsI in Hf. rewrite Hpart in Hf by done.
    destruct (Hcases name Hp) as [(e & He & ->)|Hn]; [|congruence].
    rewrite Hshard in Hf by done. destruct (shard_of env e) as [df|]; [|done].
    injection Hf as <-. by exists df.
  - intros name Hp Hi Hm. unfold fsI. rewrite lookup_insert_ne by done.
    rewrite I4.
    + rewrite clean_start_lookup, Hp. by destruct (decide (name = META_FILE)).
    + intros e _ ->. by rewrite is_part_part_filename in Hp.
  - unfold fsI. rewrite lookup_insert_ne by done. rewrite I4.
    + rewrite clean_start_lookup, is_part_meta. by destruct (decide (META_FILE = META_FILE)).
    + intros e _ Heq. by apply (part_filename_not_meta e.1).
Qed.
End BuildFacts.

Section BuildResults.
Context {F : Type} `{Num F}.
Variable cfg : Config.
Variable env : Env.

#[local] Abbreviation W := (WINDOW_SIZE cfg).
#[local] Abbreviation Hz := (PREDICT_HORIZON cfg).
#[local] Abbreviation written L := (filter (λ e, is_Some (shard_of env e)) L).


Lemma shard_of_length (e : nat * BatchAcc) (df : list (MetaRow F)) :
  batch_regular cfg e.2 → shard_of env e = Some df →
  length df = length (X_batch_of e.2).
Proof.
  intros Hreg. unfold shard_of. destruct (meta_write_fails env e.1); [done|].
  destruct (mk_dataframe_regular cfg e.2 Hreg) as (df' & -> & Hlen). by intros [= <-].
Qed.

Lemma shard_of_written (e : nat * BatchAcc) :
  batch_regular cfg e.2 → meta_write_fails env e.1 = false →
  ∃ df, shard_of env e = Some df ∧ mk_dataframe e.2 = Some df
      ∧ length df = length (X_batch_of e.2).
Proof.
  intros Hreg Hw. unfold shard_of. rewrite Hw.
  destruct (mk_dataframe_regular cfg e.2 Hreg) as (df & -> & Hlen). by exists df.
Qed.

Lemma written_rows_le (L : list (nat * BatchAcc)) :
  Forall (λ e, batch_regular cfg e.2) L →
  length (concat ((λ e, default [] (shard_of env e)) <$> written L))
  ≤ length (concat (X_batch_of <$> L.*2)).
Proof.
  induction 1 as [|e L He _ IH]; [done|].
  rewrite filter_cons, !fmap_cons. cbn [concat]. rewrite length_app.
  destruct (decide (is_Some (shard_of env e))) as [[df Hdf]|Hn].
  - rewrite fmap_cons. cbn [concat]. rewrite length_app, Hdf. simpl default.
    rewrite (shard_of_length e df He Hdf). lia.
  - lia.
Qed.

Lemma written_all (L : list (nat * BatchAcc)) :
  (∀ k, meta_write_fails env k = false) →
  Forall (λ e, batch_regular cfg e.2) L →
  written L = L
  ∧ Forall2 (λ e df, mk_dataframe e.2 = Some df
                     ∧ length df = length (X_batch_of e.2))
            L ((λ e, default [] (shard_of env e)) <$> L)
  ∧ length (concat ((λ e, default [] (shard_of env e)) <$> L))
    = length (concat (X_batch_of <$> L.*2)).
Proof.
  intros Hw. induction 1 as [|e L He _ (IH1 & IH2 & IH3)]; [by repeat split|].
  destruct (shard_of_written e He (Hw e.1)) as (df & Hdf & Hmk & Hlen).
  rewrite filter_cons, !fmap_cons. cbn [concat]. rewrite !length_app, Hdf.
  rewrite decide_True by by eexists. rewrite IH1. simpl default.
  split; [done|]. split; [by constructor|]. lia.
Qed.

Lemma shards_read (fsI : gmap string (File F)) (L : list (nat * BatchAcc)) :
  (∀ e, e ∈ L → read_meta fsI (part_filename e.1) = shard_of env e) →
  (λ name, default [] (read_meta fsI name)) <$> ((λ e, part_filename e.1) <$> written L)
  = (λ e, default [] (shard_of env e)) <$> written L.
Proof.
  intros Hread. rewrite <-list_fmap_compose. apply list_fmap_ext.
  intros i e He%list_elem_of_lookup_2%list_elem_of_filter. simpl.
  by rewrite Hread by apply He.
Qed.

Lemma build_ledger_regular (rows : list (PriceRow F)) (l : list (nat * list string)) :
  1 ≤ W → 1 ≤ Hz → Forall (λ e, batch_regular cfg e.2) (batch_ledger cfg env rows l).
Proof.
  intros HW HH. apply Forall_forall. intros e He.
  by eapply batch_ledger_regular.
Qed.

End BuildResults.

Lemma index_eq {F : Type} (a b : IndexFlatL2 F) :
  ix_d a = ix_d b → ix_ntotal a = ix_ntotal b → ix_xb a = ix_xb b → a = b.
Proof. destruct a, b. simpl. by intros -> -> ->. Qed.

Lemma part_filename_mono_10 (i j : nat) :
  i < j → j < 10 → String.le (part_filename i) (part_filename j).
Proof.
  intros Hij Hj.
  assert (Hall : Forall (λ j, Forall (λ i, i < j →
                    String.le (part_filename i) (part_filename j)) (seq 0 10))
                   (seq 0 10)).
  { compute_done. }
  eapply Forall_forall in Hall; [|apply elem_of_seq; split; [lia|exact Hj]].
  eapply Forall_forall in Hall; [by apply Hall|apply elem_of_seq; lia].
Qed.

Lemma StronglySorted_lt_seq (a n : nat) : StronglySorted lt (seq a n).
Proof.
  revert a. induction n as [|n IH]; intros a; simpl; constructor; [apply IH|].
  apply Forall_forall. intros x Hx%elem_of_seq. lia.
Qed.

Lemma concat_lookup_aligned {A B : Type} (As : list (list A)) (Bs : list (list B))
    (i : nat) (x : A) :
  Forall2 (λ a b, length a = length b) As Bs →
  concat As !! i = Some x →
  ∃ k j a b, As !! k = Some a ∧ Bs !! k = Some b ∧ a !! j = Some x
           ∧ concat Bs !! i = b !! j.
Proof.
  intros HF. revert i. induction HF as [|a b As Bs Hab _ IH]; intros i Hi; [done|].
  simpl in Hi. destruct (decide (i < length a)) as [Hlt|Hge].
  - rewrite lookup_app_l in Hi by done. exists 0, i, a, b.
    repeat split; try done. simpl. apply lookup_app_l. lia.
  - rewrite lookup_app_r in Hi by lia.
    destruct (IH _ Hi) as (k & j & a' & b' & Ha & Hb & Hj & Hc).
    exists (S k), j, a', b'. repeat split; try done.
    simpl. rewrite lookup_app_r by lia. by rewrite <-Hab.
Qed.

Section BuildOrder.
Context {F : Type} `{Num F}.
Variable cfg : Config.
Variable env : Env.

#[local] Abbreviation W := (WINDOW_SIZE cfg).
#[local] Abbreviation Hz := (PREDICT_HORIZON cfg).
#[local] Abbreviation written L := (filter (λ e, is_Some (shard_of env e)) L).


Lemma index_reconstruct_concat (idx : IndexFlatL2 F) (X : list (list F)) (i : nat) :
  ix_ntotal idx = length X → ix_xb idx = concat X →
  Forall (λ r, length r = ix_d idx) X →
  index_reconstruct idx i = X !! i.
Proof.
  intros Hn Hx HX. unfold index_reconstruct. rewrite Hn, Hx.
  destruct (Nat.ltb_spec i (length X)) as [Hlt|Hge].
  - destruct (lookup_lt_is_Some_2 X i Hlt) as [row Hrow]. rewrite Hrow.
    f_equal. by apply concat_row.
  - symmetry. by apply lookup_ge_None_2.
Qed.

End BuildOrder.

Lemma fold_opt_invariant_on {A B : Type} (P : A → Prop) (Q : B → Prop)
    (f : A → B → option A) (a b : A) (l : list B) :
  (∀ a x a', Q x → P a → f a x = Some a' → P a') →
  Forall Q l → P a → fold_opt f a l = Some b → P b.
Proof.
  intros Hf Hl. revert a. induction Hl as [|x l Hx _ IH]; intros a Ha Hfold; simpl in *.
  - by injection Hfold as <-.
  - destruct (f a x) as [a'|] eqn:Hfa; [|done]. simpl in Hfold. eauto.
Qed.

Section BatchRows.
Context {F : Type} `{Num F}.
Variable cfg : Config.

#[local] Abbreviation W := (WINDOW_SIZE cfg).
#[local] Abbreviation Hz := (PREDICT_HORIZON cfg).

(** Row [i] of the columns of a batch describes window [j] of the group
    [g]. *)
#[local] Abbreviation row_of acc i s d r g j cur fut :=
  (s = g.1
   ∧ X_batch_of acc !! i
     = Some (map f_astype32 (shape_vector (take W (drop j (map p_close g.2)))))
   ∧ map p_ts g.2 !! (j + W - 1) = Some d
   ∧ map p_close g.2 !! (j + W - 1) = Some cur
   ∧ map p_close g.2 !! (j + W - 1 + Hz) = Some fut
   ∧ r = simple_return fut cur).

Lemma batch_step_rows (Q : string * list (PriceRow F) → Prop)
    (acc acc' : BatchAcc) (g : string * list (PriceRow F)) :
  1 ≤ W → 1 ≤ Hz → Q g →
  batch_regular cfg acc →
  (∀ i s d r, col_symbol acc !! i = Some s → col_date acc !! i = Some d →
     col_future_return acc !! i = Some r →
     ∃ g j cur fut, Q g ∧ row_of acc i s d r g j cur fut) →
  batch_step cfg acc g = Some acc' →
  ∀ i s d r, col_symbol acc' !! i = Some s → col_date acc' !! i = Some d →
    col_future_return acc' !! i = Some r →
    ∃ g j cur fut, Q g ∧ row_of acc' i s d r g j cur fut.
Proof.
  intros HW HH HQ Hreg Hrows Hstep i s d r Hs Hd Hr.
  unfold batch_step in Hstep.
  destruct (decide (length (map p_close g.2) < W + Hz)) as [Hshort|Hlong].
  { rewrite process_symbol_short in Hstep by done. simpl in Hstep.
    injection Hstep as <-. by apply Hrows. }
  rewrite process_symbol_rows in Hstep by (done || lia). simpl in Hstep.
  set (closes := map p_close g.2) in *. set (dates := map p_ts g.2) in *.
  set (n := length closes + 1 - W - Hz) in *.
  injection Hstep as <-. cbn [col_symbol col_date col_future_return] in Hs, Hd, Hr.
  destruct Hreg as (Hv & Hls & Hld & Hlr).
  assert (HlX : length (X_batch_of acc) = length (concat (batch_vectors acc)))
    by (unfold X_batch_of; by rewrite length_map).
  destruct (decide (i < length (concat (batch_vectors acc)))) as [Hold|Hnew].
  - rewrite lookup_app_l in Hs by lia. rewrite lookup_app_l in Hd by lia.
    rewrite lookup_app_l in Hr by lia.
    destruct (Hrows i s d r Hs Hd Hr) as (g0 & j & cur & fut & HQ0 & -> & HX & Hrest).
    exists g0, j, cur, fut. split; [done|]. split; [done|]. split; [|done].
    rewrite X_batch_of_snoc. by apply lookup_app_l_Some.
  - rewrite lookup_app_r in Hs by lia. rewrite lookup_app_r in Hd by lia.
    rewrite lookup_app_r in Hr by lia.
    rewrite Hls in Hs. rewrite Hld in Hd. rewrite Hlr in Hr.
    set (j := i - length (concat (batch_vectors acc))) in *.
    apply lookup_replicate in Hs as [-> Hj].
    apply lookup_take_Some in Hd as [Hd _]. rewrite lookup_drop in Hd.
    apply lookup_zip_with_Some in Hr as (fut & cur & -> & Hfut & Hcur).
    apply lookup_take_Some in Hfut as [Hfut _]. rewrite lookup_drop in Hfut.
    apply lookup_take_Some in Hcur as [Hcur _]. rewrite lookup_drop in Hcur.
    exists g, j, cur, fut. split; [done|]. split; [done|].
    replace (j + W - 1) with (W - 1 + j) by lia.
    replace (W - 1 + j + Hz) with (W + Hz - 1 + j) by lia.
    split; [|done].
    rewrite X_batch_of_snoc, lookup_app_r by lia. rewrite HlX. fold j.
    rewrite !list_lookup_fmap, lookup_seq_lt by done. done.
Qed.

End BatchRows.


Lemma fmap_inj_on {A B : Type} (f : A → B) (l1 l2 : list A) :
  (∀ x y, x ∈ l1 → y ∈ l2 → f x = f y → x = y) →
  f <$> l1 = f <$> l2 → l1 = l2.
Proof.
  revert l2. induction l1 as [|x l1 IH]; intros [|y l2] Hinj Heq; try done.
  rewrite !fmap_cons in Heq. injection Heq as Hxy Heq.
  f_equal.
  - apply Hinj; [by left|by left|done].
  - apply IH; [|done]. intros a b Ha Hb. apply Hinj; by right.
Qed.

Section QueryGeneral.
Context {F : Type} `{Num F}.

Lemma found_ids_elem (ids : list nat) (n i : nat) :
  Z.of_nat i ∈ (Z.of_nat <$> ids) ++ replicate n (-1)%Z ↔ i ∈ ids.
Proof.
  rewrite elem_of_app, list_elem_of_fmap. split.
  - intros [(j & Hj & Hin)|Hr]; [by apply Nat2Z.inj in Hj as ->|].
    apply list_elem_of_lookup in Hr as (p & [Hr _]%lookup_replicate). lia.
  - intros Hi. left. by exists i.
Qed.

(** Sorting the selected metadata rows by the rank of their row id restores
    the order of the search; rows whose id the metadata table lacks are
    absent. *)
Lemma rank_restored_any (ids : list nat) (n : nat) (meta : list (MetaRow F)) :
  NoDup ids →
  let found_ids := (Z.of_nat <$> ids) ++ replicate n (-1)%Z in
  let R := py_sort_by
             (λ x : nat * MetaRow F,
                Z.of_nat (default 999 (order_map found_ids !! Z.of_nat x.1)))
             (filter (λ r : nat * MetaRow F, Z.of_nat r.1 ∈ found_ids) (imap pair meta)) in
  R.*1 = filter (λ i, i < length meta) ids ∧ ∀ x, x ∈ R → meta !! x.1 = Some x.2.
Proof.
  intros Hnd found_ids.
  set (pos := λ i : nat, default 999 (order_map found_ids !! Z.of_nat i)).
  assert (∀ p i, ids !! p = Some i → pos i = p) as Hpos.
  { intros p i Hp. unfold pos, found_ids. by rewrite (order_map_position _ _ p). }
  set (D := filter (λ r : nat * MetaRow F, Z.of_nat r.1 ∈ found_ids) (imap pair meta)).
  intros R.
  assert (R ≡ₚ D) as HR by apply py_sort_by_Permutation.
  assert (∀ x, x ∈ R → meta !! x.1 = Some x.2) as Hmeta.
  { intros [i m]. rewrite HR. unfold D.
    by intros [_ ?%imap_pair_elem]%list_elem_of_filter. }
  split; [|done].
  set (shown := filter (λ i, i < length meta) ids).
  assert (NoDup D.*1) as HDnd.
  { refine (sublist_NoDup _ (seq 0 (length meta)) (NoDup_seq _ _) _).
    rewrite <-imap_pair_fst. apply fmap_sublist, sublist_filter. }
  assert (R.*1 ≡ₚ shown) as HR1.
  { rewrite HR. apply NoDup_Permutation; [done|by apply NoDup_filter|].
    intros i. unfold shown, D. rewrite list_elem_of_filter, list_elem_of_fmap. split.
    - intros ([i' m] & -> & [Hin Hm%imap_pair_elem]%list_elem_of_filter). simpl in *.
      split; [by eapply lookup_lt_Some|]. by apply found_ids_elem in Hin.
    - intros [Hlt Hin]. destruct (lookup_lt_is_Some_2 meta i Hlt) as [m Hm].
      exists (i, m). split; [done|]. apply list_elem_of_filter. split.
      + simpl. by apply found_ids_elem.
      + by apply imap_pair_elem. }
  assert (pos <$> ids = seq 0 (length ids)) as Hposids.
  { apply list_eq. intros p. rewrite list_lookup_fmap.
    destruct (ids !! p) as [i|] eqn:Hp; simpl.
    - rewrite (Hpos _ _ Hp). symmetry. apply lookup_seq. split; [done|].
      by eapply lookup_lt_Some.
    - symmetry. apply lookup_ge_None. rewrite length_seq. by apply lookup_ge_None. }
  assert (pos <$> R.*1 = pos <$> shown) as HP.
  { apply (Sorted_unique le).
    - rewrite <- list_fmap_compose.
      eapply (Sorted_fmap _ _ _ R); [|apply py_sort_by_Sorted].
      intros x y Hxy. simpl in *. unfold pos. lia.
    - apply StronglySorted_Sorted.
      apply (StronglySorted_sublist le _ (pos <$> ids)).
      + apply fmap_sublist, sublist_filter.
      + rewrite Hposids. apply Sorted_StronglySorted; [apply _|apply Sorted_le_seq].
    - by rewrite HR1. }
  apply (fmap_inj_on pos); [|done].
  intros x y Hx Hy Hxy.
  assert (x ∈ ids) as (p & Hp)%list_elem_of_lookup.
  { rewrite HR1 in Hx. by apply list_elem_of_filter in Hx as [_ ?]. }
  assert (y ∈ ids) as (q & Hq)%list_elem_of_lookup.
  { by apply list_elem_of_filter in Hy as [_ ?]. }
  rewrite (Hpos _ _ Hp), (Hpos _ _ Hq) in Hxy. subst q. congruence.
Qed.

Lemma plot_loop_app (index : IndexFlatL2 F) (acc : list (Match F))
    (a b : list (nat * (nat * MetaRow F))) :
  plot_loop index acc (a ++ b)
  = match plot_loop index acc a with
    | inl e => inl e
    | inr acc' => plot_loop index acc' b
    end.
Proof.
  revert acc. induction a as [|x a IH]; intros acc; simpl; [done|].
  destruct (plot_step index acc x); [done|apply IH].
Qed.

(** The figure has nine axes: the tenth neighbour raises. *)
Lemma plot_loop_overflow (index : IndexFlatL2 F) (l : list (nat * MetaRow F)) :
  9 < length l → Forall (λ x, x.1 < ix_ntotal index) l →
  plot_loop index [] (imap pair l) = inl IndexError.
Proof.
  intros Hlen Hl. rewrite <-(take_drop 9 l), imap_app, plot_loop_app.
  rewrite plot_loop_all; cycle 1.
  { apply Forall_forall. intros [i x] Hx%imap_pair_elem. simpl. split.
    - apply lookup_lt_Some in Hx. rewrite length_take in Hx. lia.
    - apply lookup_take_Some in Hx as [Hx _].
      eapply Forall_forall in Hl; [exact Hl|by eapply list_elem_of_lookup_2]. }
  destruct (drop 9 l) as [|x rest] eqn:Hd.
  { apply (f_equal length) in Hd. rewrite length_drop in Hd. simpl in Hd. lia. }
  simpl. unfold plot_step. simpl.
  rewrite length_take, Nat.min_l by lia. done.
Qed.

Lemma shown_results (index : IndexFlatL2 F) (meta : list (MetaRow F))
    (R : list (nat * MetaRow F)) :
  (∀ x, x ∈ R → meta !! x.1 = Some x.2) →
  map (λ x, match_of index x.1 x.2) R
  = omap (λ i, match_of index i <$> meta !! i) R.*1.
Proof.
  induction R as [|x R IH]; intros HR; [done|].
  rewrite fmap_cons. pose proof (HR x ltac:(by left)) as Hx.
  simpl. rewrite Hx. simpl. f_equal. apply IH. intros y Hy. apply HR. by right.
Qed.

Lemma hits_ids (index : IndexFlatL2 F) (q : list F) (k : nat) :
  let hits := take k (merge_sort hit_le (scored_rows index q)) in
  NoDup hits.*1 ∧ Forall (λ i, i < ix_ntotal index) hits.*1
  ∧ length hits = min k (ix_ntotal index).
Proof.
  intros hits.
  assert (Hperm : (merge_sort hit_le (scored_rows index q)).*1 ≡ₚ seq 0 (ix_ntotal index))
    by by rewrite merge_sort_Permutation, scored_rows_ids.
  assert (Hsub : hits.*1 `sublist_of` (merge_sort hit_le (scored_rows index q)).*1)
    by apply fmap_sublist, sublist_take.
  split; [|split].
  - refine (sublist_NoDup _ _ _ Hsub). rewrite Hperm. apply NoDup_seq.
  - apply (Forall_sublist _ _ _ Hsub). rewrite Hperm.
    apply Forall_forall. intros i Hi%elem_of_seq. lia.
  - unfold hits. rewrite length_take.
    replace (length (merge_sort hit_le (scored_rows index q)))
      with (length (merge_sort hit_le (scored_rows index q)).*1)
      by apply length_fmap.
    by rewrite Hperm, length_seq.
Qed.

(** The outcome of lines 53-109 in terms of the hits of the search: the
    neighbours shown are the hits whose row id has a metadata row, in the
    order of the search. *)
Lemma run_query_general (cfg : Config) (index : IndexFlatL2 F) (meta : list (MetaRow F))
    (query_prices : list F) :
  1 ≤ TOP_K cfg → length query_prices = ix_d index →
  ∃ hits,
    index_search index (query_vector_of query_prices) (TOP_K cfg) = Some hits
    ∧ length hits = min (TOP_K cfg) (ix_ntotal index)
    ∧ Forall (λ i, i < ix_ntotal index) hits.*1
    ∧ let shown := filter (λ i, i < length meta) hits.*1 in
      let results := omap (λ i, match_of index i <$> meta !! i) shown in
      map r_row_id results = shown
      ∧ (9 < length shown → run_query cfg index meta query_prices = Raised IndexError)
      ∧ (shown = [] → run_query cfg index meta query_prices = Raised ZeroDivisionError)
      ∧ (shown ≠ [] → length shown ≤ 9 →
         run_query cfg index meta query_prices
         = PrintReport results (win_rate_of (map r_future_r results))
                       (avg_ret_of (map r_future_r results))).
Proof.
  intros HK Hq.
  set (hits := take (TOP_K cfg)
                 (merge_sort hit_le (scored_rows index (query_vector_of query_prices)))).
  destruct (hits_ids index (query_vector_of query_prices) (TOP_K cfg))
    as (Hnd & Hlt & Hlen). fold hits in Hnd, Hlt, Hlen.
  assert (Hsearch : index_search index (query_vector_of query_prices) (TOP_K cfg)
                    = Some hits).
  { unfold index_search, query_vector_of, query_norm_of.
    by rewrite !length_map, Hq, Nat.eqb_refl. }
  exists hits. split; [done|]. split; [done|]. split; [done|].
  intros shown results.
  destruct (rank_restored_any hits.*1 (TOP_K cfg - length hits) meta Hnd)
    as [Hrank Hrows].
  unfold run_query. destruct (Nat.eqb_spec (TOP_K cfg) 0); [lia|].
  rewrite Hsearch. unfold search_ids.
  replace (map (λ h : hit, Z.of_nat h.1) hits) with (Z.of_nat <$> hits.*1)
    by (by rewrite <- list_fmap_compose).
  set (R := py_sort_by _ _) in *. fold shown in Hrank.
  assert (HlenR : length R = length shown).
  { transitivity (length R.*1); [by rewrite length_fmap|]. by rewrite Hrank. }
  assert (HRlt : Forall (λ x : nat * MetaRow F, x.1 < ix_ntotal index) R).
  { apply Forall_forall. intros x Hx.
    assert (x.1 ∈ shown) as [_ Hin]%list_elem_of_filter
      by (rewrite <-Hrank; by apply list_elem_of_fmap_2).
    eapply Forall_forall in Hlt; [exact Hlt|done]. }
  assert (Hres : map (λ x, match_of index x.1 x.2) R = results).
  { unfold results. rewrite <-Hrank. by apply shown_results. }
  assert (Hids : map r_row_id results = shown).
  { rewrite <-Hres, <-Hrank. rewrite <-!list_fmap_compose. done. }
  split; [done|]. split; [|split].
  - intros H9. rewrite plot_loop_overflow; [done|lia|done].
  - intros Hnil. rewrite Hnil in HlenR. by destruct R.
  - intros Hne H9. rewrite plot_loop_all; cycle 1.
    { apply Forall_forall. intros [i x] Hx%imap_pair_elem. simpl. split.
      - apply lookup_lt_Some in Hx. lia.
      - eapply Forall_forall in HRlt; [exact HRlt|by eapply list_elem_of_lookup_2]. }
    simpl.
    assert (map (λ x : nat * (nat * MetaRow F), match_of index x.2.1 x.2.2) (imap pair R)
            = results) as ->.
    { rewrite <-Hres. apply list_eq. intros j.
      rewrite !list_lookup_fmap, list_lookup_imap. by destruct (R !! j). }
    destruct results as [|res results'] eqn:Hr; [|done].
    rewrite <-Hids in Hne. done.
Qed.
End QueryGeneral.

Section QueryOutcomes.
Context {F : Type} `{Num F}.
Variable cfg : Config.

(** The closes of the query window: the last [WINDOW_SIZE] rows of the
    target symbol (lines 36 and 43). *)
#[local] Abbreviation query_prices_of df_prices target_symbol :=
  (map p_close
     (drop (length (filter (λ r, p_symbol r = target_symbol) df_prices) - WINDOW_SIZE cfg)
           (filter (λ r, p_symbol r = target_symbol) df_prices))).

Lemma search_pattern_runs (fs : gmap string (File F)) (target_symbol : string)
    (index : IndexFlatL2 F) (meta : list (MetaRow F)) (df_prices : list (PriceRow F)) :
  fs !! INDEX_FILE = Some (FIndex index) →
  fs !! META_FILE = Some (FMeta meta) →
  fs !! DATASET_FILE = Some (FDataset df_prices) →
  WINDOW_SIZE cfg ≤ length (filter (λ r, p_symbol r = target_symbol) df_prices) →
  search_pattern cfg fs target_symbol
  = run_query cfg index meta (query_prices_of df_prices target_symbol)
  ∧ length (query_prices_of df_prices target_symbol) = WINDOW_SIZE cfg.
Proof.
  intros Hi Hm Hd Hw. unfold search_pattern. rewrite Hi, Hm, Hd.
  set (rows := filter (λ r, p_symbol r = target_symbol) df_prices) in *.
  rewrite length_map, length_drop.
  destruct (Nat.ltb_spec (length rows - (length rows - WINDOW_SIZE cfg))
                         (WINDOW_SIZE cfg)); [lia|].
  split; [done|lia].
Qed.

(** X9: in the ordinary case, an index of at least [TOP_K] vectors
    ([TOP_K <= 9], the axes of the figure) whose metadata table has a row
    for every vector, the query reports exactly [TOP_K] neighbours: the hits
    of [index.search] in their rank order, each with the metadata row found
    at its row id and the vector stored there. *)
Theorem query_reports_top_k (fs : gmap string (File F)) (target_symbol : string)
    (index : IndexFlatL2 F) (meta : list (MetaRow F)) (df_prices : list (PriceRow F)) :
  fs !! INDEX_FILE = Some (FIndex index) →
  fs !! META_FILE = Some (FMeta meta) →
  fs !! DATASET_FILE = Some (FDataset df_prices) →
  WINDOW_SIZE cfg ≤ length (filter (λ r, p_symbol r = target_symbol) df_prices) →
  ix_d index = WINDOW_SIZE cfg →
  1 ≤ TOP_K cfg → TOP_K cfg ≤ 9 →
  TOP_K cfg ≤ ix_ntotal index → ix_ntotal index ≤ length meta →
  ∃ hits results,
    index_search index (query_vector_of (query_prices_of df_prices target_symbol))
                 (TOP_K cfg) = Some hits
    ∧ Sorted hit_le hits
    ∧ search_pattern cfg fs target_symbol
      = PrintReport results (win_rate_of (map r_future_r results))
                    (avg_ret_of (map r_future_r results))
    ∧ length results = TOP_K cfg
    ∧ map r_row_id results = hits.*1
    ∧ ∀ res, res ∈ results →
        ∃ m, meta !! r_row_id res = Some m ∧ res = match_of index (r_row_id res) m.
Proof.
  intros Hi Hm Hd Hw Hdim HK H9 HKN HNM.
  destruct (search_pattern_runs fs target_symbol index meta df_prices Hi Hm Hd Hw)
    as [-> Hq].
  pose proof (eq_trans Hq (eq_sym Hdim)) as Hq'. clear Hq. rename Hq' into Hq.
  destruct (run_query_general cfg index meta _ HK Hq)
    as (hits & Hs & Hlen & Hlt & Hids & _ & _ & Hrep).
  rewrite filter_all in Hids, Hrep
    by (eapply Forall_impl; [exact Hlt|]; simpl; intros; lia).
  set (results := omap (λ i, match_of index i <$> meta !! i) hits.*1) in *.
  assert (Hlh : length hits.*1 = TOP_K cfg).
  { etrans; [apply length_fmap|]. etrans; [exact Hlen|lia]. }
  exists hits, results. split; [done|].
  split; [by apply (index_search_hits _ _ _ _ Hs)|].
  split.
  { apply Hrep; [|lia]. intros Hnil. rewrite Hnil in Hlh. simpl in Hlh. lia. }
  split.
  { rewrite <-Hlh, <-Hids. by rewrite length_map. }
  split; [done|].
  intros res (i & Hin & Hres)%list_elem_of_omap.
  destruct (meta !! i) as [m|] eqn:Hmi; [|done]. injection Hres as <-.
  exists m. by split.
Qed.

(** X10: the figure of line 70 has nine axes, so a query that finds more
    than nine neighbours ([TOP_K >= 10] against at least ten vectors with
    metadata) raises [IndexError] at the tenth and reports nothing. *)
Theorem query_tenth_neighbour_raises (fs : gmap string (File F)) (target_symbol : string)
    (index : IndexFlatL2 F) (meta : list (MetaRow F)) (df_prices : list (PriceRow F)) :
  fs !! INDEX_FILE = Some (FIndex index) →
  fs !! META_FILE = Some (FMeta meta) →
  fs !! DATASET_FILE = Some (FDataset df_prices) →
  WINDOW_SIZE cfg ≤ length (filter (λ r, p_symbol r = target_symbol) df_prices) →
  ix_d index = WINDOW_SIZE cfg →
  10 ≤ TOP_K cfg → 10 ≤ ix_ntotal index → ix_ntotal index ≤ length meta →
  search_pattern cfg fs target_symbol = Raised IndexError.
Proof.
  intros Hi Hm Hd Hw Hdim HK HN HNM.
  destruct (search_pattern_runs fs target_symbol index meta df_prices Hi Hm Hd Hw)
    as [-> Hq].
  pose proof (eq_trans Hq (eq_sym Hdim)) as Hq'. clear Hq. rename Hq' into Hq.
  destruct (run_query_general cfg index meta _ ltac:(lia) Hq)
    as (hits & Hs & Hlen & Hlt & _ & Hover & _).
  rewrite filter_all in Hover
    by (eapply Forall_impl; [exact Hlt|]; simpl; intros; lia).
  apply Hover.
  assert (length hits.*1 = min (TOP_K cfg) (ix_ntotal index)) as ->
    by (etrans; [apply length_fmap|exact Hlen]).
  lia.
Qed.

(** X11: neighbours whose row id has no metadata row (a metadata table
    shorter than the index, as a failed shard write of line 116 leaves it)
    are dropped without notice: with [1 <= TOP_K <= 9] the query reports the
    remaining hits in rank order, and when none remains (an empty table or
    an empty index) line 108 divides by zero. *)
Theorem query_drops_rows_without_metadata (fs : gmap string (File F))
    (target_symbol : string) (index : IndexFlatL2 F) (meta : list (MetaRow F))
    (df_prices : list (PriceRow F)) :
  fs !! INDEX_FILE = Some (FIndex index) →
  fs !! META_FILE = Some (FMeta meta) →
  fs !! DATASET_FILE = Some (FDataset df_prices) →
  WINDOW_SIZE cfg ≤ length (filter (λ r, p_symbol r = target_symbol) df_prices) →
  ix_d index = WINDOW_SIZE cfg →
  1 ≤ TOP_K cfg → TOP_K cfg ≤ 9 →
  ∃ hits,
    index_search index (query_vector_of (query_prices_of df_prices target_symbol))
                 (TOP_K cfg) = Some hits
    ∧ let shown := filter (λ i, i < length meta) hits.*1 in
      (shown = [] → search_pattern cfg fs target_symbol = Raised ZeroDivisionError)
      ∧ (shown ≠ [] →
         ∃ results,
           search_pattern cfg fs target_symbol
           = PrintReport results (win_rate_of (map r_future_r results))
                         (avg_ret_of (map r_future_r results))
           ∧ map r_row_id results = shown
           ∧ ∀ res, res ∈ results →
               ∃ m, meta !! r_row_id res = Some m
                  ∧ res = match_of index (r_row_id res) m)
      ∧ (meta = [] ∨ ix_ntotal index = 0 → shown = []).
Proof.
  intros Hi Hm Hd Hw Hdim HK H9.
  destruct (search_pattern_runs fs target_symbol index meta df_prices Hi Hm Hd Hw)
    as [-> Hq].
  pose proof (eq_trans Hq (eq_sym Hdim)) as Hq'. clear Hq. rename Hq' into Hq.
  destruct (run_query_general cfg index meta _ HK Hq)
    as (hits & Hs & Hlen & Hlt & Hids & _ & Hzero & Hrep).
  exists hits. split; [done|]. intros shown. fold shown in Hids, Hzero, Hrep.
  split; [done|]. split.
  - intros Hne.
    set (results := omap (λ i, match_of index i <$> meta !! i) shown) in *.
    exists results. split.
    { apply Hrep; [done|].
      transitivity (length hits.*1); [apply length_filter|].
      assert (length hits.*1 = min (TOP_K cfg) (ix_ntotal index)) as ->
        by (etrans; [apply length_fmap|exact Hlen]).
      lia. }
    split; [done|].
    intros res (i & Hin & Hres)%list_elem_of_omap.
    destruct (meta !! i) as [m|] eqn:Hmi; [|done]. injection Hres as <-.
    exists m. by split.
  - intros [->|H0].
    + apply filter_none, Forall_forall. intros i _. simpl. lia.
    + rewrite H0, Nat.min_0_r in Hlen. unfold shown.
      apply nil_length_inv in Hlen as ->. done.
Qed.
End QueryOutcomes.





Lemma query_reports_top_k_witness :
  ∃ results,
    search_pattern (unit_config 2) (query_files (line_index 3) (flat_meta 3)) "A"
    = PrintReport results (win_rate_of (map r_future_r results))
                  (avg_ret_of (map r_future_r results))
    ∧ length results = 2.
Proof.
  destruct (query_reports_top_k (unit_config 2) (query_files (line_index 3) (flat_meta 3))
              "A" (line_index 3) (flat_meta 3) (price_rows "A" [1]%float))
    as (hits & results & _ & _ & Hrun & Hlen & _);
    [vm_compute; reflexivity|vm_compute; reflexivity|vm_compute; reflexivity
    |vm_compute; lia|reflexivity|simpl; lia|simpl; lia|simpl; lia|simpl; lia|].
  exists results. split; [exact Hrun|exact Hlen].
Defined.

Lemma query_tenth_neighbour_raises_witness :
  search_pattern (unit_config 10) (query_files (line_index 10) (flat_meta 10)) "A"
  = Raised IndexError.
Proof.
  apply (query_tenth_neighbour_raises (unit_config 10)
           (query_files (line_index 10) (flat_meta 10)) "A"
           (line_index 10) (flat_meta 10) (price_rows "A" [1]%float));
    [vm_compute; reflexivity|vm_compute; reflexivity|vm_compute; reflexivity
    |vm_compute; lia|reflexivity|simpl; lia|simpl; lia|simpl; lia].
Defined.

Lemma query_drops_rows_without_metadata_witness :
  search_pattern (unit_config 2) (query_files (line_index 3) []) "A"
  = Raised ZeroDivisionError.
Proof.
  destruct (query_drops_rows_without_metadata (unit_config 2)
              (query_files (line_index 3) []) "A"
              (line_index 3) [] (price_rows "A" [1]%float))
    as (hits & _ & Hzero & _ & Hnil);
    [vm_compute; reflexivity|vm_compute; reflexivity|vm_compute; reflexivity
    |vm_compute; lia|reflexivity|simpl; lia|simpl; lia|].
  apply Hzero, Hnil. by left.
Defined.

Lemma fold_opt_fails {A B : Type} (f : A → B → option A) (a : A) (l : list B) (x : B) :
  (∀ a, f a x = None) → x ∈ l → fold_opt f a l = None.
Proof.
  intros Hx Hin. revert a. induction l as [|y l IH]; intros a; [by apply elem_of_nil in Hin|].
  simpl. apply elem_of_cons in Hin as [<-|Hin]; [by rewrite Hx|].
  destruct (f a y); [by apply IH|done].
Qed.

Lemma elem_of_concat_1 {A : Type} (x : A) (ls : list (list A)) :
  x ∈ concat ls → ∃ l, x ∈ l ∧ l ∈ ls.
Proof.
  induction ls as [|l ls IH]; simpl; [by intros ?%elem_of_nil|].
  intros [Hx|Hx]%elem_of_app.
  - exists l. split; [done|by left].
  - destruct (IH Hx) as (l' & ? & ?). exists l'. split; [done|by right].
Qed.

Section Edges.
Context {F : Type} `{Num F}.
Variable cfg : Config.
Variable env : Env.

#[local] Abbreviation W := (WINDOW_SIZE cfg).
#[local] Abbreviation Hz := (PREDICT_HORIZON cfg).
#[local] Abbreviation written L := (filter (λ e, is_Some (shard_of env e)) L).

(** With a horizon of 0 the slice [closes[:-0]] of line 73 is empty, and
    [sliding_window_view] raises on every series that passes the guard. *)
Lemma process_symbol_zero_horizon (closes : list F) (dates : list Z) :
  Hz = 0 → 1 ≤ W → W ≤ length closes → process_symbol cfg closes dates = None.
Proof.
  intros H0 HW Hlen. unfold process_symbol. rewrite H0.
  destruct (Nat.ltb_spec (length closes) (W + 0)); [lia|].
  change (- Z.of_nat 0)%Z with (Z.of_nat 0).
  assert (py_slice None (Some (Z.of_nat 0)) closes = []) as ->.
  { unfold py_slice. cbn [from_option]. rewrite py_bound_nonneg.
    by rewrite Nat.min_0_r. }
  unfold sliding_window_view. cbn [length].
  by destruct (Nat.ltb_spec 0 W); [|lia].
Qed.

Lemma group_of_symbol (rows : list (PriceRow F)) (symbols_batch : list string)
    (s : string) :
  s ∈ symbols_batch → 1 ≤ length (filter (λ r, p_symbol r = s) rows) →
  ∃ g, g ∈ partition_by_symbol (load_batch rows symbols_batch)
     ∧ g.1 = s
     ∧ length g.2 = length (filter (λ r, p_symbol r = s) rows).
Proof.
  intros Hs Hlen.
  exists (s, filter (λ r, p_symbol r = s) (load_batch rows symbols_batch)).
  split; [|split; [done|]].
  - unfold partition_by_symbol. apply list_elem_of_fmap. exists s. split; [done|].
    apply first_occurrences_spec. split; [|apply not_elem_of_nil].
    destruct (filter (λ r, p_symbol r = s) rows) as [|r l] eqn:Hf; [simpl in Hlen; lia|].
    assert (r ∈ filter (λ r, p_symbol r = s) rows) as [Hr Hin]%list_elem_of_filter
      by (rewrite Hf; left).
    apply list_elem_of_fmap. exists r. split; [done|].
    rewrite (load_batch_Permutation rows symbols_batch).
    apply list_elem_of_filter. by rewrite Hr.
  - simpl. rewrite (load_batch_Permutation rows symbols_batch), list_filter_filter.
    f_equal. apply list_filter_iff. intros r. split; [by intros [? _]|].
    intros ->. by split.
Qed.

(** X12: with [PREDICT_HORIZON = 0] the build raises as soon as a batch that
    loads holds a symbol with at least [WINDOW_SIZE] rows: line 73 slices
    [closes[:-0]], which is empty, and [sliding_window_view] raises outside
    any [try]. *)
Theorem zero_horizon_build_raises (fs : gmap string (File F)) (rows : list (PriceRow F))
    (s : string) :
  Hz = 0 → 1 ≤ W →
  fs !! DATASET_FILE = Some (FDataset rows) →
  (∀ k, load_fails env k = false) →
  s ∈ all_symbols env →
  W ≤ length (filter (λ r, p_symbol r = s) rows) →
  build_index cfg env fs = None.
Proof.
  intros H0 HW Hd Hlf Hs Hlen. unfold build_index. rewrite Hd.
  unfold chunks. destruct (Nat.eqb_spec (BATCH_SIZE cfg) 0) as [|HB]; [done|].
  simpl. set (cs := chunks_aux _ _ _).
  assert (Hcat : concat cs = all_symbols env) by (apply chunks_aux_concat; lia).
  rewrite <-Hcat in Hs. apply elem_of_concat_1 in Hs as (chunk & Hs & Hchunk).
  apply list_elem_of_lookup in Hchunk as [k Hk].
  assert (Hfail : ∀ st, process_batch cfg env rows st (k, chunk) = None).
  { intros st. unfold process_batch. simpl. rewrite Hlf.
    destruct (group_of_symbol rows chunk s Hs ltac:(lia)) as (g & Hg & _ & Hgl).
    unfold collect_batch.
    rewrite (fold_opt_fails (batch_step cfg) batch_empty _ g); [done| |done].
    intros acc. unfold batch_step.
    rewrite process_symbol_zero_horizon; [done|done|done|].
    rewrite length_map. lia. }
  unfold run_batches.
  rewrite (fold_opt_fails _ _ _ (k, chunk) Hfail); [done|].
  by apply imap_pair_elem.
Qed.

Lemma written_rows_lt (L : list (nat * BatchAcc)) (e : nat * BatchAcc) :
  Forall (λ e, batch_regular cfg e.2) L →
  e ∈ L → shard_of env e = None → X_batch_of e.2 ≠ [] →
  length (concat ((λ e, default [] (shard_of env e)) <$> written L))
  < length (concat (X_batch_of <$> L.*2)).
Proof.
  intros HL. induction HL as [|e0 L He0 HL IH]; intros Hin Hnone Hne;
    [by apply elem_of_nil in Hin|].
  pose proof (written_rows_le cfg env L HL) as Hle.
  rewrite filter_cons, !fmap_cons. cbn [concat]. rewrite length_app.
  apply elem_of_cons in Hin as [<-|Hin].
  - rewrite decide_False by (rewrite Hnone; by intros [? ?]).
    destruct (X_batch_of e.2); [done|]. simpl. lia.
  - specialize (IH Hin Hnone Hne).
    destruct (decide (is_Some (shard_of env e0))) as [[df Hdf]|Hn]; [|lia].
    rewrite fmap_cons. cbn [concat]. rewrite length_app, Hdf. simpl default.
    rewrite (shard_of_length cfg env e0 df He0 Hdf). lia.
Qed.

Lemma ledger_rows_ge (L : list (nat * BatchAcc)) (e : nat * BatchAcc) :
  e ∈ L → length (X_batch_of e.2) ≤ length (concat (X_batch_of <$> L.*2)).
Proof.
  induction L as [|e0 L IH]; [by intros ?%elem_of_nil|].
  rewrite !fmap_cons. cbn [concat]. rewrite length_app.
  intros [->|Hin]%elem_of_cons; [lia|]. specialize (IH Hin). lia.
Qed.

End Edges.

Lemma zero_horizon_build_raises_witness :
  build_index zero_horizon_config (calm_env ["A"])
              (dataset_only (price_rows "A" [1; 2]%float)) = None.
Proof.
  apply (zero_horizon_build_raises zero_horizon_config (calm_env ["A"])
           (dataset_only (price_rows "A" [1; 2]%float)) (price_rows "A" [1; 2]%float) "A");
    [reflexivity|simpl; lia|vm_compute; reflexivity|intros k; reflexivity
    |by left|vm_compute; lia].
Defined.

